(** * Restaurant-Pizza API: a shallow embedding of [server/models.py] and
      [server/app.py], and the properties of its HTTP handlers.

    The store is the three tables of [models.py]; a handler is a function
    from the store (and the request) to the next store and the response.
    Exceptions are values of [result]; the recursion of the serializer is
    bounded by a fuel that plays the part of the interpreter's recursion
    limit (exhausting it is [RecursionError]). *)

From Stdlib Require Import ZArith QArith List String Ascii Bool Lia.
Import ListNotations.

Open Scope string_scope.
Open Scope list_scope.
Open Scope Z_scope.

(** ** Exceptions and results *)

Inductive exn : Type :=
| ValueError (msg : string)
| IntegrityError (msg : string)
| StatementError (msg : string)
| AttributeError (msg : string)
| OverflowError (msg : string)
| RecursionError.

(** [str(e)] *)
Definition str (e : exn) : string :=
  match e with
  | ValueError msg | IntegrityError msg | StatementError msg
  | AttributeError msg | OverflowError msg => msg
  | RecursionError => "maximum recursion depth exceeded"
  end.

Inductive result (A : Type) : Type :=
| Ok (a : A)
| Raise (e : exn).

Arguments Ok {A} a.
Arguments Raise {A} e.

Definition bind {A B : Type} (m : result A) (k : A -> result B) : result B :=
  match m with
  | Ok a => k a
  | Raise e => Raise e
  end.

Notation "x <- m ;; k" := (bind m (fun x => k))
  (at level 61, m at next level, right associativity).

(** A comprehension [[f x for x in l]] whose body may raise. *)
Fixpoint for_each {A B : Type} (f : A -> result B) (l : list A) : result (list B) :=
  match l with
  | [] => Ok []
  | x :: xs => y <- f x ;; ys <- for_each f xs ;; Ok (y :: ys)
  end.

(** ** Python values that cross the JSON boundary *)

(** A Python [float]: a finite value (here a rational, which every finite
    double is), an infinity or NaN.  Only comparisons are made on them. *)
Inductive pyfloat : Type :=
| FFin (q : Q)
| FInf
| FNegInf
| FNaN.

(** [x <= y] on floats: false as soon as one side is NaN. *)
Definition float_le (x y : pyfloat) : bool :=
  match x, y with
  | FNaN, _ | _, FNaN => false
  | FNegInf, _ => true
  | _, FInf => true
  | FFin a, FFin b => Qle_bool a b
  | _, _ => false
  end.

Set Warnings "-register-all".

(** What [request.get_json()] yields and [jsonify] takes: [None], [bool],
    [int], [float], [str], [list], [dict].  The fields of an object are kept
    in the order the serializer visits them; an object is read up to that
    order. *)
Inductive json : Type :=
| JNull
| JBool (b : bool)
| JInt (z : Z)
| JFloat (f : pyfloat)
| JStr (s : string)
| JArr (l : list json)
| JObj (fields : list (string * json)).

Definition keys_of (fields : list (string * json)) : list string :=
  map fst fields.

(** [key in d] on a serialized object. *)
Definition has_key (key : string) (j : json) : bool :=
  match j with
  | JObj fields => existsb (String.eqb key) (keys_of fields)
  | _ => false
  end.

(** [isinstance(value, (int, float))]; [bool] is a subclass of [int]. *)
Definition isinstance_int_float (value : json) : bool :=
  match value with
  | JBool _ | JInt _ | JFloat _ => true
  | _ => false
  end.

(** [n <= value] and [value <= n] for an [int] literal [n].  Python compares
    an [int] with a [float] exactly; the last case is never reached behind
    the [isinstance] guard (Python would raise [TypeError] there). *)
Definition int_le_value (n : Z) (value : json) : bool :=
  match value with
  | JBool b => n <=? Z.b2z b
  | JInt z => n <=? z
  | JFloat f => float_le (FFin (inject_Z n)) f
  | _ => false
  end.

Definition value_le_int (value : json) (n : Z) : bool :=
  match value with
  | JBool b => Z.b2z b <=? n
  | JInt z => z <=? n
  | JFloat f => float_le f (FFin (inject_Z n))
  | _ => false
  end.

(** Truthiness of a [str]: [not name] holds of the empty string only. *)
Definition truthy (s : string) : bool :=
  negb (String.eqb s "").

Definition len (s : string) : Z := Z.of_nat (String.length s).

(** ** models.py *)

Module Restaurant.

(** A row of the table [restaurants]. *)
Record t : Type := mk { id : Z; name : string; address : string }.

(** An instance that has not been flushed yet: no primary key, and an
    attribute is [None] until it is assigned. *)
Record pending : Type :=
  mk_pending { new_name : option string; new_address : option string }.

Definition serialize_rules : list string := ["-restaurant_pizzas.restaurant"].

Definition validate_name (name : string) : result string :=
  if negb (truthy name) then
    Raise (ValueError "Restaurant must have a name.")
  else if negb ((1 <=? len name) && (len name <=? 50)) then
    Raise (ValueError "Restaurant name must be between 1 and 50 characters.")
  else Ok name.

Definition validate_address (address : string) : result string :=
  if negb (truthy address) then
    Raise (ValueError "Restaurant must have an address.")
  else Ok address.

(** [Restaurant(name=..., address=...)]: the constructor assigns each
    keyword it is given, and an assignment goes through the validator of
    the attribute.  A keyword that is left out ([None] here) is not
    assigned, so its validator does not run. *)
Definition init (name address : option string) : result pending :=
  n <- match name with
       | Some v => v' <- validate_name v ;; Ok (Some v')
       | None => Ok None
       end ;;
  a <- match address with
       | Some v => v' <- validate_address v ;; Ok (Some v')
       | None => Ok None
       end ;;
  Ok (mk_pending n a).

End Restaurant.

Module Pizza.

Record t : Type := mk { id : Z; name : string; ingredients : string }.

Record pending : Type :=
  mk_pending { new_name : option string; new_ingredients : option string }.

Definition serialize_rules : list string := ["-restaurant_pizzas.pizza"].

Definition validate_name (name : string) : result string :=
  if negb (truthy name) then Raise (ValueError "Pizza must have a name.")
  else Ok name.

Definition validate_ingredients (ingredients : string) : result string :=
  if negb (truthy ingredients) then
    Raise (ValueError "Pizza must have ingredients.")
  else Ok ingredients.

Definition init (name ingredients : option string) : result pending :=
  n <- match name with
       | Some v => v' <- validate_name v ;; Ok (Some v')
       | None => Ok None
       end ;;
  i <- match ingredients with
       | Some v => v' <- validate_ingredients v ;; Ok (Some v')
       | None => Ok None
       end ;;
  Ok (mk_pending n i).

End Pizza.

Module RestaurantPizza.

(** A row of [restaurant_pizzas]; [price] is a [Float] column. *)
Record t : Type :=
  mk { id : Z; price : pyfloat; restaurant_id : Z; pizza_id : Z }.

(** The instance as the constructor leaves it: [price] still is the
    Python value that was assigned. *)
Record pending : Type :=
  mk_pending { new_price : json; new_pizza_id : Z; new_restaurant_id : Z }.

Definition serialize_rules : list string :=
  ["-restaurant.restaurant_pizzas"; "-pizza.restaurant_pizzas"].

Definition validate_price (value : json) : result json :=
  if negb (isinstance_int_float value) then
    Raise (ValueError "Price must be a number.")
  else if negb (int_le_value 1 value && value_le_int value 30) then
    Raise (ValueError "Price must be between 1 and 30 (inclusive).")
  else Ok value.

(** [RestaurantPizza(price=..., pizza_id=..., restaurant_id=...)]; only
    [price] has a validator. *)
Definition init (price : json) (pizza_id restaurant_id : Z) : result pending :=
  p <- validate_price price ;;
  Ok (mk_pending p pizza_id restaurant_id).

End RestaurantPizza.

(** ** The store *)

(** The three tables, rows in insertion order. *)
Record DB : Type := mk_DB {
  restaurants : list Restaurant.t;
  pizzas : list Pizza.t;
  restaurant_pizzas : list RestaurantPizza.t
}.

Definition empty_db : DB := mk_DB [] [] [].

(** The row of a table under a primary key, if there is one: what a SELECT
    by key finds, and how a relationship loads the row that the foreign key
    of a stored row names. *)
Definition Restaurant_row (db : DB) (id : Z) : option Restaurant.t :=
  find (fun r => Restaurant.id r =? id) (restaurants db).

Definition Pizza_row (db : DB) (id : Z) : option Pizza.t :=
  find (fun p => Pizza.id p =? id) (pizzas db).

Definition RestaurantPizza_row (db : DB) (id : Z) : option RestaurantPizza.t :=
  find (fun rp => RestaurantPizza.id rp =? id) (restaurant_pizzas db).

(** The integers the store takes as a key: signed, 64 bits. *)
Definition in_int64 (z : Z) : bool :=
  (- 2 ^ 63 <=? z) && (z <? 2 ^ 63).

(** [Model.query.get(id)] with an id that comes from the request.  The id
    is bound as a parameter of the SELECT, and the driver of the default
    store refuses an integer that does not fit 64 bits: the call raises
    [OverflowError].  The keys of the rows fit 64 bits, so on every store
    the database can hold it is the ids that no row has that can be
    refused. *)
Definition query_get {A : Type} (row : option A) (id : Z) : result (option A) :=
  match row with
  | Some a => Ok (Some a)
  | None =>
      if in_int64 id then Ok None
      else Raise (OverflowError "Python int too large to convert to SQLite INTEGER")
  end.

Definition Restaurant_query_get (db : DB) (id : Z) : result (option Restaurant.t) :=
  query_get (Restaurant_row db id) id.

Definition Pizza_query_get (db : DB) (id : Z) : result (option Pizza.t) :=
  query_get (Pizza_row db id) id.

(** The key an [Integer] primary key gets on insert: one more than the
    largest key in use, 1 in an empty table. *)
Definition next_id (ids : list Z) : Z :=
  match ids with
  | [] => 1
  | i :: rest => fold_right Z.max i rest + 1
  end.

(** The relationship [Restaurant.restaurant_pizzas] (and the one of [Pizza]):
    the join rows whose foreign key is the row's primary key. *)
Definition restaurant_pizzas_of_restaurant (db : DB) (r : Restaurant.t)
  : list RestaurantPizza.t :=
  filter (fun rp => RestaurantPizza.restaurant_id rp =? Restaurant.id r)
         (restaurant_pizzas db).

Definition restaurant_pizzas_of_pizza (db : DB) (p : Pizza.t)
  : list RestaurantPizza.t :=
  filter (fun rp => RestaurantPizza.pizza_id rp =? Pizza.id p)
         (restaurant_pizzas db).

(** ** The serializer ([SerializerMixin.to_dict])

    [models.py] only declares rules; what they mean is fixed by the
    serializer of the mixin, modelled here for the rules the program uses
    (negative rules, that exclude the attribute at the end of a dotted path).
    A schema is the list of rules in force at the current object. *)

Module Serializer.

Record Rule : Type := mk_Rule { is_negative : bool; keys : list string }.

(** [text.split(delim)] *)
Fixpoint split (delim : ascii) (text : string) : list string :=
  match text with
  | EmptyString => [EmptyString]
  | String c rest =>
      if Ascii.eqb c delim then EmptyString :: split delim rest
      else match split delim rest with
           | [] => [String c EmptyString]
           | w :: ws => String c w :: ws
           end
  end.

(** A rule is written [-a.b.c] (negative) or [a.b.c]. *)
Definition parse (text : string) : Rule :=
  match text with
  | String "-"%char rest => mk_Rule true (split "."%char rest)
  | _ => mk_Rule false (split "."%char text)
  end.

Definition Schema : Type := list Rule.

(** [schema.update(extend=rules)] *)
Definition update (schema : Schema) (extend : list string) : Schema :=
  schema ++ map parse extend.

Definition is_leaf_for (key : string) (r : Rule) : bool :=
  match keys r with
  | [k] => String.eqb k key
  | _ => false
  end.

(** A key is left out when a negative rule ends at it. *)
Definition is_included (schema : Schema) (key : string) : bool :=
  negb (existsb (fun r => is_negative r && is_leaf_for key r) schema).

(** The rules that go on below [key]: those that start with it and go
    deeper, without their first segment. *)
Fixpoint fork (schema : Schema) (key : string) : Schema :=
  match schema with
  | [] => []
  | r :: rest =>
      match keys r with
      | k :: ((_ :: _) as deeper) =>
          if String.eqb k key
          then mk_Rule (is_negative r) deeper :: fork rest key
          else fork rest key
      | _ => fork rest key
      end
  end.

End Serializer.

(** An instance of one of the three mapped classes. *)
Inductive model : Type :=
| MRestaurant (r : Restaurant.t)
| MPizza (p : Pizza.t)
| MRestaurantPizza (rp : RestaurantPizza.t).

(** What an attribute of an instance holds: a column value, a related
    instance (or [None]), or the collection of a one-to-many relationship. *)
Inductive value : Type :=
| Prim (j : json)
| Obj (m : model)
| Coll (ms : list model).

Definition serialize_rules (m : model) : list string :=
  match m with
  | MRestaurant _ => Restaurant.serialize_rules
  | MPizza _ => Pizza.serialize_rules
  | MRestaurantPizza _ => RestaurantPizza.serialize_rules
  end.

(** The mapped attributes of each class: its columns, then its
    relationships.  The association proxies ([pizzas], [restaurants]) are
    not mapper attributes and are not serialized. *)
Definition serializable_keys (m : model) : list string :=
  match m with
  | MRestaurant _ => ["id"; "name"; "address"; "restaurant_pizzas"]
  | MPizza _ => ["id"; "name"; "ingredients"; "restaurant_pizzas"]
  | MRestaurantPizza _ =>
      ["id"; "price"; "restaurant_id"; "pizza_id"; "restaurant"; "pizza"]
  end.

Definition related {A : Type} (inj : A -> model) (o : option A) : value :=
  match o with
  | Some a => Obj (inj a)
  | None => Prim JNull
  end.

(** [getattr(instance, key)]; a relationship is loaded from the store. *)
Definition getattr (db : DB) (m : model) (key : string) : result value :=
  match m with
  | MRestaurant r =>
      if String.eqb key "id" then Ok (Prim (JInt (Restaurant.id r)))
      else if String.eqb key "name" then Ok (Prim (JStr (Restaurant.name r)))
      else if String.eqb key "address" then Ok (Prim (JStr (Restaurant.address r)))
      else if String.eqb key "restaurant_pizzas" then
        Ok (Coll (map MRestaurantPizza (restaurant_pizzas_of_restaurant db r)))
      else Raise (AttributeError key)
  | MPizza p =>
      if String.eqb key "id" then Ok (Prim (JInt (Pizza.id p)))
      else if String.eqb key "name" then Ok (Prim (JStr (Pizza.name p)))
      else if String.eqb key "ingredients" then Ok (Prim (JStr (Pizza.ingredients p)))
      else if String.eqb key "restaurant_pizzas" then
        Ok (Coll (map MRestaurantPizza (restaurant_pizzas_of_pizza db p)))
      else Raise (AttributeError key)
  | MRestaurantPizza rp =>
      if String.eqb key "id" then Ok (Prim (JInt (RestaurantPizza.id rp)))
      else if String.eqb key "price" then Ok (Prim (JFloat (RestaurantPizza.price rp)))
      else if String.eqb key "restaurant_id" then
        Ok (Prim (JInt (RestaurantPizza.restaurant_id rp)))
      else if String.eqb key "pizza_id" then
        Ok (Prim (JInt (RestaurantPizza.pizza_id rp)))
      else if String.eqb key "restaurant" then
        Ok (related MRestaurant
              (Restaurant_row db (RestaurantPizza.restaurant_id rp)))
      else if String.eqb key "pizza" then
        Ok (related MPizza (Pizza_row db (RestaurantPizza.pizza_id rp)))
      else Raise (AttributeError key)
  end.

(** [Serializer.serialize]: a column value goes out as it is, a collection
    item by item under the same schema, and an instance as the object of its
    included keys, each serialized under the fork of the schema at that key,
    after the rules of the instance's class have been added to the schema.
    Every call uses one unit of [fuel]. *)
Fixpoint serialize (fuel : nat) (db : DB) (schema : Serializer.Schema) (v : value)
  : result json :=
  match fuel with
  | O => Raise RecursionError
  | S fuel' =>
      match v with
      | Prim j => Ok j
      | Coll ms =>
          items <- for_each (fun m => serialize fuel' db schema (Obj m)) ms ;;
          Ok (JArr items)
      | Obj m =>
          let schema' := Serializer.update schema (serialize_rules m) in
          fields <- for_each
                      (fun k =>
                         a <- getattr db m k ;;
                         j <- serialize fuel' db (Serializer.fork schema' k) a ;;
                         Ok (k, j))
                      (filter (Serializer.is_included schema') (serializable_keys m)) ;;
          Ok (JObj fields)
      end
  end.

(** [instance.to_dict(rules=rules)] *)
Definition to_dict (fuel : nat) (db : DB) (m : model) (rules : list string)
  : result json :=
  serialize fuel db (Serializer.update [] rules) (Obj m).

(** ** The session: what a commit writes *)

(** The bind processor of a [Float] column is [float(value)], and [None]
    stays [None], on which the column's [nullable=False] fails. *)
Definition to_float (value : json) : result pyfloat :=
  match value with
  | JNull => Raise (IntegrityError "NOT NULL constraint failed")
  | JBool b => Ok (FFin (inject_Z (Z.b2z b)))
  | JInt z => Ok (FFin (inject_Z z))
  | JFloat f => Ok f
  | _ => Raise (StatementError "could not convert to float")
  end.

Definition not_null {A : Type} (o : option A) : result A :=
  match o with
  | Some a => Ok a
  | None => Raise (IntegrityError "NOT NULL constraint failed")
  end.

(** INSERT into [restaurants]: both columns are [nullable=False] and [name]
    is [unique=True].  The lengths of [String(50)] and [String(100)] are
    part of the column type only; the default SQLite store does not check
    them. *)
Definition insert_restaurant (db : DB) (p : Restaurant.pending) : result DB :=
  name <- not_null (Restaurant.new_name p) ;;
  address <- not_null (Restaurant.new_address p) ;;
  if existsb (String.eqb name) (map Restaurant.name (restaurants db)) then
    Raise (IntegrityError "UNIQUE constraint failed: restaurants.name")
  else
    let row := Restaurant.mk (next_id (map Restaurant.id (restaurants db)))
                             name address in
    Ok (mk_DB (restaurants db ++ [row]) (pizzas db) (restaurant_pizzas db)).

Definition insert_pizza (db : DB) (p : Pizza.pending) : result DB :=
  name <- not_null (Pizza.new_name p) ;;
  ingredients <- not_null (Pizza.new_ingredients p) ;;
  let row := Pizza.mk (next_id (map Pizza.id (pizzas db))) name ingredients in
  Ok (mk_DB (restaurants db) (pizzas db ++ [row]) (restaurant_pizzas db)).

(** INSERT into [restaurant_pizzas]; gives the store and the row as it is
    read back once the commit has expired the instance. *)
Definition insert_restaurant_pizza (db : DB) (p : RestaurantPizza.pending)
  : result (DB * RestaurantPizza.t) :=
  price <- to_float (RestaurantPizza.new_price p) ;;
  let row := RestaurantPizza.mk
               (next_id (map RestaurantPizza.id (restaurant_pizzas db)))
               price
               (RestaurantPizza.new_restaurant_id p)
               (RestaurantPizza.new_pizza_id p) in
  Ok (mk_DB (restaurants db) (pizzas db) (restaurant_pizzas db ++ [row]), row).

(** [db.session.add_all(instances); db.session.commit()]: one transaction,
    written whole or not at all. *)
Fixpoint add_all_commit {P : Type} (insert : DB -> P -> result DB)
         (db : DB) (instances : list P) : result DB :=
  match instances with
  | [] => Ok db
  | p :: rest => db' <- insert db p ;; add_all_commit insert db' rest
  end.

(** [db.session.delete(restaurant); db.session.commit()]: the relationship
    [restaurant_pizzas] has [cascade="all, delete-orphan"], so the join rows
    of the restaurant are deleted with it. *)
Definition delete_commit (db : DB) (restaurant : Restaurant.t) : result DB :=
  Ok (mk_DB
        (filter (fun r => negb (Restaurant.id r =? Restaurant.id restaurant))
                (restaurants db))
        (pizzas db)
        (filter (fun rp => negb (RestaurantPizza.restaurant_id rp
                                 =? Restaurant.id restaurant))
                (restaurant_pizzas db))).

(** ** app.py *)

Inductive body : Type :=
| Json (j : json)
| Text (s : string)
| Unhandled (e : exn).

(** [make_response(body, status_code)] *)
Record response : Type := make_response { data : body; status_code : Z }.

Definition jsonify (j : json) : body := Json j.

(** An exception that leaves a handler is answered by the framework, with
    status 500 and a body of its own, which stands here as [Unhandled]. *)
Definition unhandled (e : exn) : response :=
  make_response (Unhandled e) 500.

Definition make_error_response (message : string) (status_code : Z) : response :=
  make_response (jsonify (JObj [("error", JStr message)])) status_code.

(** [status_code] is left at its default, 400, by every caller. *)
Definition make_validation_error_response (errors : list string) : response :=
  make_response (jsonify (JObj [("errors", JArr (map JStr errors))])) 400.

(** GET / *)
Definition index : response :=
  make_response (Text "<h1>Restaurant-Pizza API</h1>") 200.

(** GET /restaurants *)
Definition Restaurants_get (fuel : nat) (db : DB) : result response :=
  serialized_restaurants <-
    for_each (fun r => to_dict fuel db (MRestaurant r) ["-restaurant_pizzas"])
             (restaurants db) ;;
  Ok (make_response (jsonify (JArr serialized_restaurants)) 200).

(** GET /restaurants/<int:id> *)
Definition RestaurantByID_get (fuel : nat) (db : DB) (id : Z) : result response :=
  restaurant <- Restaurant_query_get db id ;;
  match restaurant with
  | None => Ok (make_error_response "Restaurant not found" 404)
  | Some restaurant =>
      j <- to_dict fuel db (MRestaurant restaurant) [] ;;
      Ok (make_response (jsonify j) 200)
  end.

(** DELETE /restaurants/<int:id>; the lookup is made before the [try]. *)
Definition RestaurantByID_delete (db : DB) (id : Z) : DB * response :=
  match Restaurant_query_get db id with
  | Raise e => (db, unhandled e)
  | Ok None => (db, make_error_response "Restaurant not found" 404)
  | Ok (Some restaurant) =>
      match delete_commit db restaurant with
      | Ok db' => (db', make_response (Text "") 204)
      | Raise e =>
          (db, make_error_response ("Failed to delete restaurant: " ++ str e) 500)
      end
  end.

(** GET /pizzas *)
Definition Pizzas_get (fuel : nat) (db : DB) : result response :=
  serialized_pizzas <-
    for_each (fun p => to_dict fuel db (MPizza p) ["-restaurant_pizzas"])
             (pizzas db) ;;
  Ok (make_response (jsonify (JArr serialized_pizzas)) 200).

(** The three [data.get(...)] of POST /restaurant_pizzas: [JNull] and [None]
    stand for Python's [None], which is what [get] gives for a key that is
    absent from the body (or null in it).  The two identifiers are taken at
    the type of their columns, [Integer]. *)
Record payload : Type := mk_payload {
  price : json;
  pizza_id : option Z;
  restaurant_id : option Z
}.

(** The body of the [try]: the store as it stands when the block is left
    (a rollback undoes nothing that was committed), and the response or the
    exception the block ends with. *)
Definition post_try (fuel : nat) (db : DB) (price : json) (pizza_id restaurant_id : Z)
  : DB * result response :=
  match RestaurantPizza.init price pizza_id restaurant_id with
  | Raise e => (db, Raise e)
  | Ok new_rp =>
      match insert_restaurant_pizza db new_rp with
      | Raise e => (db, Raise e)
      | Ok (db', row) =>
          (db', j <- to_dict fuel db' (MRestaurantPizza row) [] ;;
                Ok (make_response (jsonify j) 201))
      end
  end.

(** The [except] clauses of the handler, in their order. *)
Definition post_except (db : DB) (e : exn) : DB * response :=
  match e with
  | ValueError _ =>
      (db, make_validation_error_response ["validation errors"])
  | IntegrityError _ =>
      (db, make_validation_error_response
             ["A database integrity error occurred (e.g., duplicate entry or invalid foreign key reference)."])
  | _ =>
      (db, make_error_response
             ("An unexpected server error occurred: " ++ str e) 500)
  end.

(** POST /restaurant_pizzas; the two lookups are made, one after the
    other, before the [try] and before either result is tested. *)
Definition RestaurantPizzas_post (fuel : nat) (db : DB) (data : payload)
  : DB * response :=
  match price data, pizza_id data, restaurant_id data with
  | JNull, _, _ | _, None, _ | _, _, None =>
      (db, make_validation_error_response
             ["Missing required fields: price, pizza_id, restaurant_id"])
  | price, Some pizza_id, Some restaurant_id =>
      match Restaurant_query_get db restaurant_id with
      | Raise e => (db, unhandled e)
      | Ok restaurant =>
          match Pizza_query_get db pizza_id with
          | Raise e => (db, unhandled e)
          | Ok pizza =>
              match restaurant, pizza with
              | None, _ => (db, make_error_response "Restaurant not found" 404)
              | Some _, None => (db, make_error_response "Pizza not found" 404)
              | Some _, Some _ =>
                  match post_try fuel db price pizza_id restaurant_id with
                  | (db', Ok resp) => (db', resp)
                  | (db', Raise e) => post_except db' e
                  end
              end
          end
      end
  end.

(** seed.py: the tables are emptied, then the three restaurants, the three
    pizzas and the five offerings are committed, one transaction each.  An
    offering is built from the two instances it relates and takes their keys
    at the flush: 1, 2, 3 in the order of the two commits before. *)
Definition seed (db : DB) : result DB :=
  let db0 := empty_db in
  shack <- Restaurant.init (Some "Karen's Pizza Shack") (Some "123 Pizza Lane") ;;
  bistro <- Restaurant.init (Some "Sanjay's Pizza Bistro") (Some "456 Doughnut Drive") ;;
  palace <- Restaurant.init (Some "Kiki's Pizza Palace") (Some "789 Cheese Street") ;;
  db1 <- add_all_commit insert_restaurant db0 [shack; bistro; palace] ;;
  cheese <- Pizza.init (Some "Margherita") (Some "Dough, Tomato Sauce, Cheese, Basil") ;;
  pepperoni <- Pizza.init (Some "Pepperoni Supreme")
                          (Some "Dough, Tomato Sauce, Cheese, Pepperoni") ;;
  california <- Pizza.init (Some "California Veggie")
                           (Some "Dough, Pesto, Ricotta, Red peppers, Spinach") ;;
  db2 <- add_all_commit insert_pizza db1 [cheese; pepperoni; california] ;;
  rp1 <- RestaurantPizza.init (JFloat (FFin (25 # 2))) 1 1 ;;
  rp2 <- RestaurantPizza.init (JFloat (FFin (14 # 1))) 2 2 ;;
  rp3 <- RestaurantPizza.init (JFloat (FFin (31 # 2))) 3 3 ;;
  rp4 <- RestaurantPizza.init (JFloat (FFin (13 # 1))) 2 1 ;;
  rp5 <- RestaurantPizza.init (JFloat (FFin (51 # 4))) 1 2 ;;
  add_all_commit (fun d p => r <- insert_restaurant_pizza d p ;; Ok (fst r))
                 db2 [rp1; rp2; rp3; rp4; rp5].

(** The store the seed script leaves. *)
Definition seeded : DB :=
  Eval vm_compute in
    match seed empty_db with
    | Ok db => db
    | Raise _ => empty_db
    end.

(** ** Vocabulary of the specification *)

Definition restaurant_exists (db : DB) (id : Z) : Prop :=
  In id (map Restaurant.id (restaurants db)).

Definition pizza_exists (db : DB) (id : Z) : Prop :=
  In id (map Pizza.id (pizzas db)).

Definition in_range_float (f : pyfloat) : Prop :=
  match f with
  | FFin q => (1 <= q)%Q /\ (q <= 30)%Q
  | _ => False
  end.

(** A price, a JSON number, within the inclusive range 1..30. *)
Definition price_within_range (v : json) : Prop :=
  match v with
  | JInt z => 1 <= z <= 30
  | JFloat f => in_range_float f
  | _ => False
  end.

(** A price, a JSON number, outside that range. *)
Definition price_outside_range (v : json) : Prop :=
  match v with
  | JInt z => ~ (1 <= z <= 30)
  | JFloat f => ~ in_range_float f
  | _ => False
  end.

(** The payload shapes of section 6 of the specification. *)
Definition restaurant_scalars (r : Restaurant.t) : list (string * json) :=
  [("id", JInt (Restaurant.id r));
   ("name", JStr (Restaurant.name r));
   ("address", JStr (Restaurant.address r))].

Definition pizza_scalars (p : Pizza.t) : list (string * json) :=
  [("id", JInt (Pizza.id p));
   ("name", JStr (Pizza.name p));
   ("ingredients", JStr (Pizza.ingredients p))].

Definition offering_scalars (rp : RestaurantPizza.t) : list (string * json) :=
  [("id", JInt (RestaurantPizza.id rp));
   ("price", JFloat (RestaurantPizza.price rp));
   ("restaurant_id", JInt (RestaurantPizza.restaurant_id rp));
   ("pizza_id", JInt (RestaurantPizza.pizza_id rp))].

(** The nested [pizza] of an offering: the related row, [None] when the
    foreign key dangles. *)
Definition nested_pizza (db : DB) (rp : RestaurantPizza.t) : json :=
  match Pizza_row db (RestaurantPizza.pizza_id rp) with
  | Some p => JObj (pizza_scalars p)
  | None => JNull
  end.

Definition offering_in_detail (db : DB) (rp : RestaurantPizza.t) : json :=
  JObj (offering_scalars rp ++ [("pizza", nested_pizza db rp)]).

(** The creation view of an offering. *)
Definition offering_created (rp : RestaurantPizza.t) (r : Restaurant.t) (p : Pizza.t)
  : json :=
  JObj (offering_scalars rp ++
        [("restaurant", JObj (restaurant_scalars r));
         ("pizza", JObj (pizza_scalars p))]).

(** Primary keys are keys, and every join row references a restaurant and a
    pizza that are there. *)
Record db_wf (db : DB) : Prop := mk_db_wf {
  wf_restaurant_ids : NoDup (map Restaurant.id (restaurants db));
  wf_pizza_ids : NoDup (map Pizza.id (pizzas db));
  wf_offering_ids : NoDup (map RestaurantPizza.id (restaurant_pizzas db));
  wf_restaurant_ref : forall rp, In rp (restaurant_pizzas db) ->
                        restaurant_exists db (RestaurantPizza.restaurant_id rp);
  wf_pizza_ref : forall rp, In rp (restaurant_pizzas db) ->
                   pizza_exists db (RestaurantPizza.pizza_id rp)
}.

(** The field rules of a stored restaurant that its validators check. *)
Definition restaurant_fields_valid (r : Restaurant.t) : Prop :=
  Restaurant.name r <> "" /\ 1 <= len (Restaurant.name r) <= 50 /\
  Restaurant.address r <> "".

(** The error responses of POST /restaurant_pizzas. *)
Definition missing_fields_response : response :=
  make_response
    (Json (JObj [("errors",
                  JArr [JStr "Missing required fields: price, pizza_id, restaurant_id"])]))
    400.

Definition validation_errors_response : response :=
  make_response (Json (JObj [("errors", JArr [JStr "validation errors"])])) 400.

Definition not_found_response (what : string) : response :=
  make_response (Json (JObj [("error", JStr (what ++ " not found"))])) 404.

(** The rules on the restaurants of a store. *)
Definition restaurants_valid (db : DB) : Prop :=
  Forall restaurant_fields_valid (restaurants db)
  /\ NoDup (map Restaurant.name (restaurants db)).

(** A string of [n] times the character [c]. *)
Fixpoint repeat_char (c : ascii) (n : nat) : string :=
  match n with
  | O => ""
  | S n' => String c (repeat_char c n')
  end.

(** The transitions of the store: the writes of [seed.py] (emptying the
    tables, committing a restaurant or a pizza that its constructor let
    through) and the two mutating handlers of [app.py]. *)
Inductive step : DB -> DB -> Prop :=
| step_clear db : step db empty_db
| step_add_restaurant db name address p db' :
    Restaurant.init name address = Ok p ->
    insert_restaurant db p = Ok db' ->
    step db db'
| step_add_pizza db name ingredients p db' :
    Pizza.init name ingredients = Ok p ->
    insert_pizza db p = Ok db' ->
    step db db'
| step_post db fuel data :
    step db (fst (RestaurantPizzas_post fuel db data))
| step_delete db id :
    step db (fst (RestaurantByID_delete db id)).

Inductive reachable : DB -> Prop :=
| reachable_empty : reachable empty_db
| reachable_step db db' : reachable db -> step db db' -> reachable db'.

(** The prices the validator lets through: [True] (a [bool] is an [int],
    and [True] is 1), an [int] or a finite [float] within 1..30. *)
Definition price_accepted (v : json) : Prop :=
  match v with
  | JBool b => b = true
  | JInt z => 1 <= z <= 30
  | JFloat f => in_range_float f
  | _ => False
  end.

(** The nested [restaurant] of an offering, and an offering inside the
    default view of its pizza. *)
Definition nested_restaurant (db : DB) (rp : RestaurantPizza.t) : json :=
  match Restaurant_row db (RestaurantPizza.restaurant_id rp) with
  | Some r => JObj (restaurant_scalars r)
  | None => JNull
  end.

Definition offering_in_pizza (db : DB) (rp : RestaurantPizza.t) : json :=
  JObj (offering_scalars rp ++ [("restaurant", nested_restaurant db rp)]).

(** The store with one more offering. *)
Definition with_offering (db : DB) (rp : RestaurantPizza.t) : DB :=
  mk_DB (restaurants db) (pizzas db) (restaurant_pizzas db ++ [rp]).

(** ** Lookups *)

Section Find.
Context {A : Type} (key : A -> Z).

Lemma find_key_none (id : Z) (l : list A) :
  find (fun a => key a =? id) l = None <-> ~ In id (map key l).
Proof.
  induction l as [|a l IH]; simpl.
  - tauto.
  - destruct (Z.eqb_spec (key a) id) as [E|E].
    + split; [discriminate | intros H; exfalso; apply H; now left].
    + rewrite IH. tauto.
Qed.

Lemma find_key_some (id : Z) (l : list A) (a : A) :
  find (fun a => key a =? id) l = Some a -> In a l /\ key a = id.
Proof.
  intros H. apply find_some in H. destruct H as [H1 H2].
  split; [assumption | now apply Z.eqb_eq].
Qed.

Lemma find_key_in (id : Z) (l : list A) :
  In id (map key l) -> exists a, find (fun a => key a =? id) l = Some a.
Proof.
  intros H. destruct (find (fun a => key a =? id) l) as [a|] eqn:E.
  - now exists a.
  - apply find_key_none in E. contradiction.
Qed.

Lemma find_key_unique (l : list A) (a : A) :
  NoDup (map key l) -> In a l -> find (fun b => key b =? key a) l = Some a.
Proof.
  induction l as [|b l IH]; simpl; intros ND HI; [contradiction|].
  inversion ND as [|? ? Hnot ND']; subst.
  destruct HI as [->|HI].
  - now rewrite Z.eqb_refl.
  - destruct (Z.eqb_spec (key b) (key a)) as [E|E].
    + exfalso. apply Hnot. rewrite E. now apply in_map.
    + now apply IH.
Qed.

Lemma fold_max_bound (rest : list Z) (j i : Z) :
  In i (j :: rest) -> i <= fold_right Z.max j rest.
Proof.
  induction rest as [|k rest IH]; cbn [fold_right]; intros H.
  - destruct H as [->|[]]. lia.
  - destruct H as [->|[->|H]].
    + pose proof (IH (or_introl eq_refl)). lia.
    + lia.
    + pose proof (IH (or_intror H)). lia.
Qed.

Lemma next_id_above (ids : list Z) (i : Z) : In i ids -> i < next_id ids.
Proof.
  destruct ids as [|j rest]; cbn [next_id]; [contradiction|].
  intros H. apply fold_max_bound in H. lia.
Qed.

Lemma next_id_fresh (ids : list Z) : ~ In (next_id ids) ids.
Proof. intros H. apply next_id_above in H. lia. Qed.

End Find.

Lemma restaurant_absent (db : DB) (id : Z) :
  ~ restaurant_exists db id -> Restaurant_row db id = None.
Proof. intros H. now apply find_key_none. Qed.

Lemma pizza_absent (db : DB) (id : Z) :
  ~ pizza_exists db id -> Pizza_row db id = None.
Proof. intros H. now apply find_key_none. Qed.

Lemma restaurant_present (db : DB) (id : Z) :
  restaurant_exists db id -> exists r, Restaurant_row db id = Some r.
Proof. apply find_key_in. Qed.

Lemma pizza_present (db : DB) (id : Z) :
  pizza_exists db id -> exists p, Pizza_row db id = Some p.
Proof. apply find_key_in. Qed.

(** [query.get] against the rows. *)
Lemma query_get_found {A : Type} (row : option A) (id : Z) (a : A) :
  row = Some a -> query_get row id = Ok (Some a).
Proof. intros ->. reflexivity. Qed.

Lemma query_get_absent {A : Type} (row : option A) (id : Z) :
  row = None -> in_int64 id = true -> query_get row id = Ok None.
Proof. intros -> H. unfold query_get. now rewrite H. Qed.

Lemma query_get_overflow {A : Type} (row : option A) (id : Z) :
  row = None -> in_int64 id = false ->
  query_get row id =
  Raise (OverflowError "Python int too large to convert to SQLite INTEGER").
Proof. intros -> H. unfold query_get. now rewrite H. Qed.

(** The two handlers of /restaurants/<int:id> against the rows. *)
Lemma get_found (fuel : nat) (db : DB) (id : Z) (r : Restaurant.t) :
  Restaurant_row db id = Some r ->
  RestaurantByID_get fuel db id =
  (j <- to_dict fuel db (MRestaurant r) [] ;; Ok (make_response (jsonify j) 200)).
Proof.
  intros H. unfold RestaurantByID_get, Restaurant_query_get.
  now rewrite (query_get_found _ id r H).
Qed.

Lemma get_absent (fuel : nat) (db : DB) (id : Z) :
  Restaurant_row db id = None -> in_int64 id = true ->
  RestaurantByID_get fuel db id =
  Ok (make_error_response "Restaurant not found" 404).
Proof.
  intros H Hi. unfold RestaurantByID_get, Restaurant_query_get.
  now rewrite (query_get_absent _ id H Hi).
Qed.

Lemma get_overflow (fuel : nat) (db : DB) (id : Z) :
  Restaurant_row db id = None -> in_int64 id = false ->
  RestaurantByID_get fuel db id =
  Raise (OverflowError "Python int too large to convert to SQLite INTEGER").
Proof.
  intros H Hi. unfold RestaurantByID_get, Restaurant_query_get.
  now rewrite (query_get_overflow _ id H Hi).
Qed.

Lemma delete_found (db : DB) (id : Z) (r : Restaurant.t) :
  Restaurant_row db id = Some r ->
  RestaurantByID_delete db id =
  match delete_commit db r with
  | Ok db' => (db', make_response (Text "") 204)
  | Raise e =>
      (db, make_error_response ("Failed to delete restaurant: " ++ str e) 500)
  end.
Proof.
  intros H. unfold RestaurantByID_delete, Restaurant_query_get.
  now rewrite (query_get_found _ id r H).
Qed.

Lemma delete_absent (db : DB) (id : Z) :
  Restaurant_row db id = None -> in_int64 id = true ->
  RestaurantByID_delete db id =
  (db, make_error_response "Restaurant not found" 404).
Proof.
  intros H Hi. unfold RestaurantByID_delete, Restaurant_query_get.
  now rewrite (query_get_absent _ id H Hi).
Qed.

Lemma delete_overflow (db : DB) (id : Z) :
  Restaurant_row db id = None -> in_int64 id = false ->
  RestaurantByID_delete db id =
  (db, unhandled (OverflowError "Python int too large to convert to SQLite INTEGER")).
Proof.
  intros H Hi. unfold RestaurantByID_delete, Restaurant_query_get.
  now rewrite (query_get_overflow _ id H Hi).
Qed.

Lemma delete_unfound_store (db : DB) (id : Z) :
  Restaurant_row db id = None -> fst (RestaurantByID_delete db id) = db.
Proof.
  intros H. destruct (in_int64 id) eqn:Hi.
  - now rewrite (delete_absent db id H Hi).
  - now rewrite (delete_overflow db id H Hi).
Qed.

(** ** The price validator *)

Lemma validate_price_raises_ValueError (v : json) (e : exn) :
  RestaurantPizza.validate_price v = Raise e -> exists msg, e = ValueError msg.
Proof.
  unfold RestaurantPizza.validate_price.
  destruct (isinstance_int_float v); simpl.
  - destruct (int_le_value 1 v && value_le_int v 30); simpl;
      intros H; inversion H; eauto.
  - intros H; inversion H; eauto.
Qed.

Lemma float_range_reflect (f : pyfloat) :
  float_le (FFin (inject_Z 1)) f && float_le f (FFin (inject_Z 30)) = true
  <-> in_range_float f.
Proof.
  destruct f as [q| | |]; simpl; try (split; [discriminate | tauto]).
  rewrite andb_true_iff, !Qle_bool_iff. reflexivity.
Qed.

Lemma validate_price_within (v : json) :
  price_within_range v -> RestaurantPizza.validate_price v = Ok v.
Proof.
  unfold RestaurantPizza.validate_price.
  destruct v as [| b | z | f | s | l | o];
    cbn [price_within_range isinstance_int_float int_le_value value_le_int negb];
    try contradiction.
  - intros [H1 H2].
    apply Z.leb_le in H1, H2. now rewrite H1, H2.
  - intros H. apply float_range_reflect in H. now rewrite H.
Qed.

Lemma validate_price_outside (v : json) :
  price_outside_range v ->
  RestaurantPizza.validate_price v =
  Raise (ValueError "Price must be between 1 and 30 (inclusive).").
Proof.
  unfold RestaurantPizza.validate_price.
  destruct v as [| b | z | f | s | l | o];
    cbn [price_outside_range isinstance_int_float int_le_value value_le_int negb];
    try contradiction.
  - intros H.
    destruct ((1 <=? z) && (z <=? 30)) eqn:E; [|reflexivity].
    exfalso. apply H. apply andb_true_iff in E. destruct E as [E1 E2].
    apply Z.leb_le in E1, E2. lia.
  - intros H.
    destruct (float_le (FFin (inject_Z 1)) f && float_le f (FFin (inject_Z 30))) eqn:E;
      [|reflexivity].
    exfalso. apply H. now apply float_range_reflect.
Qed.

(** ** The serialization views *)

Lemma for_each_map_ok {A B : Type} (f : A -> result B) (g : A -> B) (l : list A) :
  (forall x, In x l -> f x = Ok (g x)) -> for_each f l = Ok (map g l).
Proof.
  induction l as [|x l IH]; intros H; cbn [for_each map]; [reflexivity|].
  rewrite (H x (or_introl eq_refl)). cbn [bind].
  rewrite IH by (intros y Hy; apply H; now right).
  reflexivity.
Qed.

Lemma serialize_offering_created (fuel : nat) (db : DB)
      (rp : RestaurantPizza.t) (r : Restaurant.t) (p : Pizza.t) :
  Restaurant_row db (RestaurantPizza.restaurant_id rp) = Some r ->
  Pizza_row db (RestaurantPizza.pizza_id rp) = Some p ->
  to_dict (S (S (S (S fuel)))) db (MRestaurantPizza rp) [] = Ok (offering_created rp r p).
Proof.
  intros Hr Hp.
  cbn -[Pizza_row Restaurant_row]. rewrite Hr, Hp. reflexivity.
Qed.

Lemma fuel_from (n fuel : nat) : (n <= fuel)%nat -> exists f, fuel = (n + f)%nat.
Proof. intros H. exists (fuel - n)%nat. lia. Qed.

(** ** POST /restaurant_pizzas, branch by branch *)

Lemma post_missing (fuel : nat) (db : DB) (data : payload) :
  price data = JNull \/ pizza_id data = None \/ restaurant_id data = None ->
  RestaurantPizzas_post fuel db data = (db, missing_fields_response).
Proof.
  unfold RestaurantPizzas_post.
  intros [H|[H|H]]; rewrite H.
  - reflexivity.
  - destruct (price data); reflexivity.
  - destruct (price data); destruct (pizza_id data); reflexivity.
Qed.

Lemma post_present (fuel : nat) (db : DB) (data : payload) (pid rid : Z) :
  price data <> JNull -> pizza_id data = Some pid -> restaurant_id data = Some rid ->
  RestaurantPizzas_post fuel db data =
  match Restaurant_query_get db rid with
  | Raise e => (db, unhandled e)
  | Ok restaurant =>
      match Pizza_query_get db pid with
      | Raise e => (db, unhandled e)
      | Ok pizza =>
          match restaurant, pizza with
          | None, _ => (db, not_found_response "Restaurant")
          | Some _, None => (db, not_found_response "Pizza")
          | Some _, Some _ =>
              match post_try fuel db (price data) pid rid with
              | (db', Ok resp) => (db', resp)
              | (db', Raise e) => post_except db' e
              end
          end
      end
  end.
Proof.
  unfold RestaurantPizzas_post.
  intros Hp -> ->.
  destruct (price data); try reflexivity. now elim Hp.
Qed.

(** Both rows are there: the handler goes on to the [try]. *)
Lemma post_found (fuel : nat) (db : DB) (data : payload) (pid rid : Z)
      (r : Restaurant.t) (p : Pizza.t) :
  price data <> JNull -> pizza_id data = Some pid -> restaurant_id data = Some rid ->
  Restaurant_row db rid = Some r ->
  Pizza_row db pid = Some p ->
  RestaurantPizzas_post fuel db data =
  match post_try fuel db (price data) pid rid with
  | (db', Ok resp) => (db', resp)
  | (db', Raise e) => post_except db' e
  end.
Proof.
  intros Hp Hpid Hrid Er Ep.
  rewrite (post_present fuel db data pid rid Hp Hpid Hrid).
  unfold Restaurant_query_get, Pizza_query_get.
  now rewrite (query_get_found _ rid r Er), (query_get_found _ pid p Ep).
Qed.

(** No row for the restaurant, and both ids fit: 404. *)
Lemma post_restaurant_missing (fuel : nat) (db : DB) (data : payload) (pid rid : Z) :
  price data <> JNull -> pizza_id data = Some pid -> restaurant_id data = Some rid ->
  Restaurant_row db rid = None -> in_int64 rid = true ->
  (Pizza_row db pid <> None \/ in_int64 pid = true) ->
  RestaurantPizzas_post fuel db data = (db, not_found_response "Restaurant").
Proof.
  intros Hp Hpid Hrid Er Hr Hz.
  rewrite (post_present fuel db data pid rid Hp Hpid Hrid).
  unfold Restaurant_query_get, Pizza_query_get.
  rewrite (query_get_absent _ rid Er Hr).
  destruct (Pizza_row db pid) as [p|] eqn:Ep.
  - reflexivity.
  - destruct Hz as [Hz|Hz]; [congruence|].
    now rewrite (query_get_absent _ pid eq_refl Hz).
Qed.

Lemma post_pizza_missing (fuel : nat) (db : DB) (data : payload) (pid rid : Z)
      (r : Restaurant.t) :
  price data <> JNull -> pizza_id data = Some pid -> restaurant_id data = Some rid ->
  Restaurant_row db rid = Some r ->
  Pizza_row db pid = None -> in_int64 pid = true ->
  RestaurantPizzas_post fuel db data = (db, not_found_response "Pizza").
Proof.
  intros Hp Hpid Hrid Er Ep Hz.
  rewrite (post_present fuel db data pid rid Hp Hpid Hrid).
  unfold Restaurant_query_get, Pizza_query_get.
  now rewrite (query_get_found _ rid r Er), (query_get_absent _ pid Ep Hz).
Qed.

(** An id that no row has and that does not fit: the lookup raises, the
    exception leaves the handler, and the store is as it was. *)
Lemma post_overflow (fuel : nat) (db : DB) (data : payload) (pid rid : Z) :
  price data <> JNull -> pizza_id data = Some pid -> restaurant_id data = Some rid ->
  (Restaurant_row db rid = None /\ in_int64 rid = false)
  \/ (Pizza_row db pid = None /\ in_int64 pid = false) ->
  RestaurantPizzas_post fuel db data =
  (db, unhandled (OverflowError "Python int too large to convert to SQLite INTEGER")).
Proof.
  intros Hp Hpid Hrid H.
  rewrite (post_present fuel db data pid rid Hp Hpid Hrid).
  unfold Restaurant_query_get, Pizza_query_get.
  destruct (Restaurant_row db rid) as [r|] eqn:Er; cbn [query_get].
  - destruct H as [[H _]|[Ep Hz]]; [discriminate H|].
    now rewrite (query_get_overflow _ pid Ep Hz).
  - destruct (in_int64 rid) eqn:Hr; [|reflexivity].
    destruct H as [[_ H]|[Ep Hz]]; [discriminate H|].
    now rewrite (query_get_overflow _ pid Ep Hz).
Qed.

(** A row is missing: 404, or the unhandled overflow; the store is as it
    was. *)
Lemma post_unfound (fuel : nat) (db : DB) (data : payload) (pid rid : Z) :
  price data <> JNull -> pizza_id data = Some pid -> restaurant_id data = Some rid ->
  Restaurant_row db rid = None \/ Pizza_row db pid = None ->
  RestaurantPizzas_post fuel db data = (db, not_found_response "Restaurant")
  \/ RestaurantPizzas_post fuel db data = (db, not_found_response "Pizza")
  \/ (RestaurantPizzas_post fuel db data =
      (db, unhandled (OverflowError "Python int too large to convert to SQLite INTEGER"))
      /\ (in_int64 rid = false \/ in_int64 pid = false)).
Proof.
  intros Hp Hpid Hrid H.
  destruct (Restaurant_row db rid) as [r|] eqn:Er;
    destruct (Pizza_row db pid) as [p|] eqn:Ez.
  - destruct H as [H|H]; discriminate H.
  - destruct (in_int64 pid) eqn:Hip.
    + right; left. now apply (post_pizza_missing fuel db data pid rid r).
    + right; right. split; [|now right].
      apply (post_overflow fuel db data pid rid); auto.
  - destruct (in_int64 rid) eqn:Hir.
    + left. apply (post_restaurant_missing fuel db data pid rid); auto.
      left. congruence.
    + right; right. split; [|now left].
      apply (post_overflow fuel db data pid rid); auto.
  - destruct (in_int64 rid) eqn:Hir.
    + destruct (in_int64 pid) eqn:Hip.
      * left. apply (post_restaurant_missing fuel db data pid rid); auto.
      * right; right. split; [|now right].
        apply (post_overflow fuel db data pid rid); auto.
    + right; right. split; [|now left].
      apply (post_overflow fuel db data pid rid); auto.
Qed.

Lemma post_try_invalid (fuel : nat) (db : DB) (v : json) (pid rid : Z) (e : exn) :
  RestaurantPizza.validate_price v = Raise e ->
  post_try fuel db v pid rid = (db, Raise e).
Proof.
  intros H. unfold post_try, RestaurantPizza.init. now rewrite H.
Qed.

Lemma post_validation_failure_body_of
      (fuel : nat) (db : DB) (data : payload) (pid rid : Z) (e : exn) :
  price data <> JNull ->
  pizza_id data = Some pid ->
  restaurant_id data = Some rid ->
  restaurant_exists db rid ->
  pizza_exists db pid ->
  RestaurantPizza.validate_price (price data) = Raise e ->
  RestaurantPizzas_post fuel db data = (db, validation_errors_response).
Proof.
  intros Hp Hpid Hrid Hr Hz Hv.
  destruct (restaurant_present db rid Hr) as [r Er].
  destruct (pizza_present db pid Hz) as [p Ep].
  rewrite (post_found fuel db data pid rid r p Hp Hpid Hrid Er Ep).
  rewrite (post_try_invalid fuel db (price data) pid rid e Hv).
  destruct (validate_price_raises_ValueError _ _ Hv) as [msg ->].
  reflexivity.
Qed.

(** ** Properties of the handlers *)

(** C8.  A POST /restaurant_pizzas body from which [price], [pizza_id] or
    [restaurant_id] is absent is answered 400 with an [errors] array (a
    validation error, not the [error] string of a 404), and the store is left
    as it was. *)
Theorem post_missing_field_400 :
  forall (fuel : nat) (db : DB) (data : payload),
    price data = JNull \/ pizza_id data = None \/ restaurant_id data = None ->
    RestaurantPizzas_post fuel db data =
    (db,
     make_response
       (Json (JObj [("errors",
                     JArr [JStr "Missing required fields: price, pizza_id, restaurant_id"])]))
       400).
Proof.
  intros fuel db data H. now apply post_missing.
Qed.

Lemma post_missing_field_400_witness :
  RestaurantPizzas_post 4 seeded (mk_payload JNull (Some 1) (Some 1)) =
  (seeded,
   make_response
     (Json (JObj [("errors",
                   JArr [JStr "Missing required fields: price, pizza_id, restaurant_id"])]))
     400).
Proof.
  apply (post_missing_field_400 4 seeded (mk_payload JNull (Some 1) (Some 1))).
  left. reflexivity.
Defined.

(** C9 fails on the code.  DELETE /restaurants/{id} for an id that is not in
    the store and does not fit 64 bits: the lookup, made before the [try],
    raises [OverflowError]; the exception leaves the handler and the request
    is answered 500, not 404.  (The store is as it was.) *)
Theorem delete_absent_huge_id_unhandled :
  ~ restaurant_exists seeded (2 ^ 63)
  /\ RestaurantByID_delete seeded (2 ^ 63) =
     (seeded,
      make_response
        (Unhandled (OverflowError "Python int too large to convert to SQLite INTEGER"))
        500)
  /\ status_code (snd (RestaurantByID_delete seeded (2 ^ 63))) <> 404.
Proof.
  assert (H : ~ restaurant_exists seeded (2 ^ 63)).
  { unfold restaurant_exists. simpl. intros [E|[E|[E|[]]]]; discriminate E. }
  split; [exact H|].
  rewrite (delete_overflow seeded (2 ^ 63) (restaurant_absent _ _ H) eq_refl).
  split; [reflexivity | discriminate].
Qed.

(** X18.  DELETE /restaurants/{id} for an id that fits 64 bits and is not in
    the store is answered 404 and leaves the store as it was; so is the same
    request made again; the status is never 204. *)
Theorem delete_absent_restaurant_404 :
  forall (db : DB) (id : Z),
    in_int64 id = true ->
    ~ restaurant_exists db id ->
    let first := RestaurantByID_delete db id in
    let second := RestaurantByID_delete (fst first) id in
    first = (db, make_response (Json (JObj [("error", JStr "Restaurant not found")])) 404)
    /\ second = (db, make_response (Json (JObj [("error", JStr "Restaurant not found")])) 404)
    /\ status_code (snd first) <> 204
    /\ status_code (snd second) <> 204.
Proof.
  intros db id Hi H first second.
  assert (E : first = (db, make_error_response "Restaurant not found" 404)).
  { subst first. apply delete_absent; [now apply restaurant_absent | exact Hi]. }
  assert (E' : second = first).
  { subst second. rewrite E. cbn [fst]. exact E. }
  rewrite E', E. cbn. repeat split; discriminate.
Qed.

Lemma delete_absent_restaurant_404_witness :
  ~ restaurant_exists seeded 999 /\
  RestaurantByID_delete seeded 999 =
  (seeded, make_response (Json (JObj [("error", JStr "Restaurant not found")])) 404).
Proof.
  assert (H : ~ restaurant_exists seeded 999).
  { unfold restaurant_exists. simpl. intros [E|[E|[E|[]]]]; discriminate E. }
  split; [exact H|].
  exact (proj1 (delete_absent_restaurant_404 seeded 999 eq_refl H)).
Defined.

(** C10.  When the price validator raises on a POST /restaurant_pizzas that
    got as far as building the offering (the three fields are there and both
    references exist), the answer is 400 with the body
    [{"errors": ["validation errors"]}], the same for every such price, and
    the store is left as it was. *)
Theorem post_validation_failure_fixed_body :
  forall (fuel : nat) (db : DB) (data : payload) (pid rid : Z) (e : exn),
    price data <> JNull ->
    pizza_id data = Some pid ->
    restaurant_id data = Some rid ->
    restaurant_exists db rid ->
    pizza_exists db pid ->
    RestaurantPizza.validate_price (price data) = Raise e ->
    RestaurantPizzas_post fuel db data =
    (db, make_response (Json (JObj [("errors", JArr [JStr "validation errors"])])) 400).
Proof.
  intros fuel db data pid rid e Hp Hpid Hrid Hr Hz Hv.
  exact (post_validation_failure_body_of fuel db data pid rid e Hp Hpid Hrid Hr Hz Hv).
Qed.

Lemma post_validation_failure_fixed_body_witness :
  RestaurantPizzas_post 4 seeded (mk_payload (JStr "ten") (Some 1) (Some 1)) =
  (seeded, make_response (Json (JObj [("errors", JArr [JStr "validation errors"])])) 400).
Proof.
  apply (post_validation_failure_fixed_body
           4 seeded (mk_payload (JStr "ten") (Some 1) (Some 1)) 1 1
           (ValueError "Price must be a number.")).
  - discriminate.
  - reflexivity.
  - reflexivity.
  - unfold restaurant_exists. simpl. now left.
  - unfold pizza_exists. simpl. now left.
  - reflexivity.
Defined.

(** C4, as stated, fails.  The presence check comes first: a body without
    [price] whose [restaurant_id] references no row is answered 400.  And
    the lookups are made before any [try]: with the three fields there, a
    [restaurant_id] that references no row because it does not fit 64 bits
    makes the lookup raise, and the request is answered 500. *)
Lemma post_unknown_reference_not_always_404 :
  ~ (forall (fuel : nat) (db : DB) (data : payload) (rid : Z),
        restaurant_id data = Some rid ->
        ~ restaurant_exists db rid ->
        status_code (snd (RestaurantPizzas_post fuel db data)) = 404)
  /\ ~ (forall (fuel : nat) (db : DB) (data : payload) (rid : Z),
           price data <> JNull ->
           pizza_id data <> None ->
           restaurant_id data = Some rid ->
           ~ restaurant_exists db rid ->
           status_code (snd (RestaurantPizzas_post fuel db data)) = 404).
Proof.
  split.
  - intros H.
    specialize (H 4%nat seeded (mk_payload JNull (Some 1) (Some 999)) 999 eq_refl).
    assert (A : ~ restaurant_exists seeded 999).
    { unfold restaurant_exists. simpl. intros [E|[E|[E|[]]]]; discriminate E. }
    specialize (H A). vm_compute in H. discriminate H.
  - intros H.
    assert (A : ~ restaurant_exists seeded (2 ^ 63)).
    { unfold restaurant_exists. simpl. intros [E|[E|[E|[]]]]; discriminate E. }
    assert (N1 : price (mk_payload (JInt 10) (Some 1) (Some (2 ^ 63))) <> JNull)
      by discriminate.
    assert (N2 : pizza_id (mk_payload (JInt 10) (Some 1) (Some (2 ^ 63))) <> None)
      by discriminate.
    specialize (H 4%nat seeded (mk_payload (JInt 10) (Some 1) (Some (2 ^ 63)))
                  (2 ^ 63) N1 N2 eq_refl A).
    rewrite (post_overflow 4 seeded _ 1 (2 ^ 63) N1 eq_refl eq_refl) in H.
    + discriminate H.
    + left. split; [exact (restaurant_absent _ _ A) | reflexivity].
Qed.

(** C4, amended.  A POST /restaurant_pizzas that carries its three fields,
    with ids that fit 64 bits, and whose [restaurant_id] or [pizza_id]
    references no row is answered 404, with
    [{"error": "Restaurant not found"}] when the restaurant is missing and
    [{"error": "Pizza not found"}] when only the pizza is; the store is left
    as it was, whatever the price. *)
Theorem post_unknown_reference_404 :
  forall (fuel : nat) (db : DB) (data : payload) (pid rid : Z),
    price data <> JNull ->
    pizza_id data = Some pid ->
    restaurant_id data = Some rid ->
    in_int64 pid = true ->
    in_int64 rid = true ->
    ~ restaurant_exists db rid \/ ~ pizza_exists db pid ->
    exists message,
      RestaurantPizzas_post fuel db data =
      (db, make_response (Json (JObj [("error", JStr message)])) 404)
      /\ ((~ restaurant_exists db rid /\ message = "Restaurant not found")
          \/ (restaurant_exists db rid /\ ~ pizza_exists db pid
              /\ message = "Pizza not found")).
Proof.
  intros fuel db data pid rid Hp Hpid Hrid Hip Hir H.
  destruct (Restaurant_row db rid) as [r|] eqn:Er.
  - assert (Hr : restaurant_exists db rid).
    { unfold restaurant_exists.
      destruct (find_key_some Restaurant.id rid _ r Er) as [Hin <-].
      now apply in_map. }
    destruct H as [H|H]; [contradiction|].
    rewrite (post_pizza_missing fuel db data pid rid r Hp Hpid Hrid Er
               (pizza_absent db pid H) Hip).
    exists "Pizza not found". split; [reflexivity|]. right. auto.
  - assert (Hr : ~ restaurant_exists db rid) by now apply find_key_none in Er.
    rewrite (post_restaurant_missing fuel db data pid rid Hp Hpid Hrid Er Hir
               (or_intror Hip)).
    exists "Restaurant not found". split; [reflexivity|]. left. auto.
Qed.

Lemma post_unknown_reference_404_witness :
  exists message,
    RestaurantPizzas_post 4 seeded (mk_payload (JInt 10) (Some 77) (Some 1)) =
    (seeded, make_response (Json (JObj [("error", JStr message)])) 404)
    /\ ((~ restaurant_exists seeded 1 /\ message = "Restaurant not found")
        \/ (restaurant_exists seeded 1 /\ ~ pizza_exists seeded 77
            /\ message = "Pizza not found")).
Proof.
  apply (post_unknown_reference_404
           4 seeded (mk_payload (JInt 10) (Some 77) (Some 1)) 77 1).
  - discriminate.
  - reflexivity.
  - reflexivity.
  - reflexivity.
  - reflexivity.
  - right. unfold pizza_exists. simpl. intros [E|[E|[E|[]]]]; discriminate E.
Defined.

(** C3, as stated, fails: the two lookups come before the offering is
    built.  A price of 0 with a [restaurant_id] that references no row is
    answered 404. *)
Lemma post_price_outside_unknown_restaurant_404 :
  ~ (forall (fuel : nat) (db : DB) (data : payload),
        price_outside_range (price data) ->
        status_code (snd (RestaurantPizzas_post fuel db data)) = 400).
Proof.
  intros H.
  specialize (H 4%nat seeded (mk_payload (JInt 0) (Some 1) (Some 999))).
  assert (A : price_outside_range (JInt 0)) by (simpl; lia).
  specialize (H A). vm_compute in H. discriminate H.
Qed.

(** C3, amended.  A POST /restaurant_pizzas whose [restaurant_id] and
    [pizza_id] reference existing rows and whose price is a number outside
    1..30 is answered 400 with a non-empty [errors] array, and no row is
    written: the store is left as it was. *)
Theorem post_price_outside_range_400 :
  forall (fuel : nat) (db : DB) (data : payload) (pid rid : Z),
    pizza_id data = Some pid ->
    restaurant_id data = Some rid ->
    restaurant_exists db rid ->
    pizza_exists db pid ->
    price_outside_range (price data) ->
    exists errors,
      RestaurantPizzas_post fuel db data =
      (db, make_response (Json (JObj [("errors", JArr errors)])) 400)
      /\ errors <> [].
Proof.
  intros fuel db data pid rid Hpid Hrid Hr Hz Hout.
  exists [JStr "validation errors"]. split; [|discriminate].
  apply (post_validation_failure_body_of fuel db data pid rid
           (ValueError "Price must be between 1 and 30 (inclusive).")); auto.
  - intros E. rewrite E in Hout. exact Hout.
  - now apply validate_price_outside.
Qed.

Lemma post_price_outside_range_400_witness :
  exists errors,
    RestaurantPizzas_post 4 seeded (mk_payload (JInt 31) (Some 1) (Some 1)) =
    (seeded, make_response (Json (JObj [("errors", JArr errors)])) 400)
    /\ errors <> [].
Proof.
  apply (post_price_outside_range_400
           4 seeded (mk_payload (JInt 31) (Some 1) (Some 1)) 1 1).
  - reflexivity.
  - reflexivity.
  - unfold restaurant_exists. simpl. now left.
  - unfold pizza_exists. simpl. now left.
  - simpl. lia.
Defined.

(** ** The views, on any store *)

Lemma serialize_Prim (fuel : nat) (db : DB) (schema : Serializer.Schema) (j : json) :
  serialize (S fuel) db schema (Prim j) = Ok j.
Proof. reflexivity. Qed.

Lemma serialize_Obj (fuel : nat) (db : DB) (schema : Serializer.Schema) (m : model) :
  serialize (S fuel) db schema (Obj m) =
  let schema' := Serializer.update schema (serialize_rules m) in
  fields <- for_each
              (fun k =>
                 a <- getattr db m k ;;
                 j <- serialize fuel db (Serializer.fork schema' k) a ;;
                 Ok (k, j))
              (filter (Serializer.is_included schema') (serializable_keys m)) ;;
  Ok (JObj fields).
Proof. reflexivity. Qed.

Lemma serialize_Coll (fuel : nat) (db : DB) (schema : Serializer.Schema)
      (ms : list model) :
  serialize (S fuel) db schema (Coll ms) =
  items <- for_each (fun m => serialize fuel db schema (Obj m)) ms ;;
  Ok (JArr items).
Proof. reflexivity. Qed.

Lemma for_each_map {A B C : Type} (f : B -> result C) (g : A -> B) (l : list A) :
  for_each f (map g l) = for_each (fun x => f (g x)) l.
Proof.
  induction l as [|x l IH]; cbn [for_each map]; [reflexivity|].
  now rewrite IH.
Qed.

Lemma serialize_offering_detail (fuel : nat) (db : DB) (rp : RestaurantPizza.t) :
  serialize (S (S (S fuel))) db [Serializer.mk_Rule true ["restaurant"]]
            (Obj (MRestaurantPizza rp))
  = Ok (offering_in_detail db rp).
Proof.
  unfold offering_in_detail, nested_pizza.
  cbn -[Pizza_row].
  destruct (Pizza_row db (RestaurantPizza.pizza_id rp)); reflexivity.
Qed.

Lemma to_dict_restaurant_detail (fuel : nat) (db : DB) (r : Restaurant.t) :
  to_dict (S (S (S (S (S fuel))))) db (MRestaurant r) [] =
  Ok (JObj (restaurant_scalars r ++
            [("restaurant_pizzas",
              JArr (map (offering_in_detail db)
                        (restaurant_pizzas_of_restaurant db r)))])).
Proof.
  unfold to_dict. rewrite serialize_Obj.
  cbn -[serialize restaurant_pizzas_of_restaurant].
  rewrite !serialize_Prim. cbn [bind].
  rewrite serialize_Coll, for_each_map.
  rewrite (for_each_map_ok _ (offering_in_detail db))
    by (intros rp _; apply serialize_offering_detail).
  reflexivity.
Qed.

Lemma to_dict_restaurant_list (fuel : nat) (db : DB) (r : Restaurant.t) :
  to_dict (S (S fuel)) db (MRestaurant r) ["-restaurant_pizzas"] =
  Ok (JObj (restaurant_scalars r)).
Proof. reflexivity. Qed.

Lemma to_dict_pizza_list (fuel : nat) (db : DB) (p : Pizza.t) :
  to_dict (S (S fuel)) db (MPizza p) ["-restaurant_pizzas"] =
  Ok (JObj (pizza_scalars p)).
Proof. reflexivity. Qed.

Lemma Forall2_map_r {A B : Type} (P : A -> B -> Prop) (f : A -> B) (l : list A) :
  (forall x, In x l -> P x (f x)) -> Forall2 P l (map f l).
Proof.
  induction l as [|x l IH]; intros H; cbn [map]; constructor.
  - apply H. now left.
  - apply IH. intros y Hy. apply H. now right.
Qed.

Lemma seed_ok (db : DB) : seed db = Ok seeded.
Proof. reflexivity. Qed.

Lemma seeded_wf : db_wf seeded.
Proof.
  constructor.
  - cbn. repeat constructor; cbn; intuition discriminate.
  - cbn. repeat constructor; cbn; intuition discriminate.
  - cbn. repeat constructor; cbn; intuition discriminate.
  - intros rp H. unfold restaurant_exists. cbn in H |- *.
    repeat (destruct H as [<-|H]; [cbn; tauto|]). contradiction.
  - intros rp H. unfold pizza_exists. cbn in H |- *.
    repeat (destruct H as [<-|H]; [cbn; tauto|]). contradiction.
Qed.

(** C7.  GET /restaurants and GET /pizzas answer 200 with an array that has,
    for each row, the object of its columns ([id, name, address], or
    [id, name, ingredients]); no element has a [restaurant_pizzas] key. *)
Theorem list_endpoints_scalars_only :
  forall (fuel : nat) (db : DB),
    (2 <= fuel)%nat ->
    exists rs ps,
      Restaurants_get fuel db = Ok (make_response (Json (JArr rs)) 200)
      /\ Pizzas_get fuel db = Ok (make_response (Json (JArr ps)) 200)
      /\ rs = map (fun r => JObj (restaurant_scalars r)) (restaurants db)
      /\ ps = map (fun p => JObj (pizza_scalars p)) (pizzas db)
      /\ Forall (fun o => has_key "restaurant_pizzas" o = false) rs
      /\ Forall (fun o => has_key "restaurant_pizzas" o = false) ps.
Proof.
  intros fuel db Hf.
  destruct (fuel_from 2 fuel Hf) as [f ->]. cbn [Nat.add].
  eexists; eexists. repeat split.
  - unfold Restaurants_get.
    rewrite (for_each_map_ok _ (fun r => JObj (restaurant_scalars r)))
      by (intros r _; apply to_dict_restaurant_list).
    reflexivity.
  - unfold Pizzas_get.
    rewrite (for_each_map_ok _ (fun p => JObj (pizza_scalars p)))
      by (intros p _; apply to_dict_pizza_list).
    reflexivity.
  - apply Forall_forall. intros o Ho. apply in_map_iff in Ho.
    destruct Ho as [r [<- _]]. reflexivity.
  - apply Forall_forall. intros o Ho. apply in_map_iff in Ho.
    destruct Ho as [p [<- _]]. reflexivity.
Qed.

Lemma list_endpoints_scalars_only_witness :
  exists rs ps,
    Restaurants_get 2 seeded = Ok (make_response (Json (JArr rs)) 200)
    /\ Pizzas_get 2 seeded = Ok (make_response (Json (JArr ps)) 200)
    /\ rs = map (fun r => JObj (restaurant_scalars r)) (restaurants seeded)
    /\ ps = map (fun p => JObj (pizza_scalars p)) (pizzas seeded)
    /\ Forall (fun o => has_key "restaurant_pizzas" o = false) rs
    /\ Forall (fun o => has_key "restaurant_pizzas" o = false) ps.
Proof.
  apply (list_endpoints_scalars_only 2 seeded). lia.
Defined.

(** C1 fails on the code.  GET /restaurants/{id} for an id that is not in
    the store and does not fit 64 bits: the lookup raises [OverflowError],
    which nothing in the handler catches, so the request is answered 500 by
    the framework, not 404 with [{"error": "Restaurant not found"}]. *)
Theorem restaurant_by_id_get_huge_id_raises :
  ~ restaurant_exists seeded (2 ^ 63)
  /\ RestaurantByID_get 5 seeded (2 ^ 63) =
     Raise (OverflowError "Python int too large to convert to SQLite INTEGER")
  /\ RestaurantByID_get 5 seeded (2 ^ 63) <>
     Ok (make_response (Json (JObj [("error", JStr "Restaurant not found")])) 404).
Proof.
  assert (H : ~ restaurant_exists seeded (2 ^ 63)).
  { unfold restaurant_exists. simpl. intros [E|[E|[E|[]]]]; discriminate E. }
  split; [exact H|].
  rewrite (get_overflow 5 seeded (2 ^ 63) (restaurant_absent _ _ H) eq_refl).
  split; [reflexivity | discriminate].
Qed.

(** X17.  GET /restaurants/{id}, for an id in the store, answers 200 with the
    restaurant's [id, name, address] and a [restaurant_pizzas] array that has,
    for each offering of the restaurant, its [id, price, restaurant_id,
    pizza_id] and a [pizza] object of exactly [id, name, ingredients]: the
    offering has no [restaurant] key and the pizza no [restaurant_pizzas]
    key.  For an id that fits 64 bits and is not in the store it answers 404
    with [{"error": "Restaurant not found"}]. *)
Theorem restaurant_by_id_get_detail :
  forall (fuel : nat) (db : DB) (id : Z),
    (5 <= fuel)%nat ->
    db_wf db ->
    (restaurant_exists db id ->
     exists r offerings,
       In r (restaurants db) /\ Restaurant.id r = id
       /\ RestaurantByID_get fuel db id =
          Ok (make_response
                (Json (JObj (restaurant_scalars r ++
                             [("restaurant_pizzas", JArr offerings)])))
                200)
       /\ Forall2
            (fun rp o =>
               exists p,
                 In p (pizzas db) /\ Pizza.id p = RestaurantPizza.pizza_id rp
                 /\ o = JObj (offering_scalars rp ++ [("pizza", JObj (pizza_scalars p))])
                 /\ has_key "restaurant" o = false
                 /\ has_key "restaurant_pizzas" (JObj (pizza_scalars p)) = false)
            (filter (fun rp => RestaurantPizza.restaurant_id rp =? id)
                    (restaurant_pizzas db))
            offerings)
    /\ (~ restaurant_exists db id ->
        in_int64 id = true ->
        RestaurantByID_get fuel db id =
        Ok (make_response (Json (JObj [("error", JStr "Restaurant not found")])) 404)).
Proof.
  intros fuel db id Hf Hwf.
  destruct (fuel_from 5 fuel Hf) as [f ->]. cbn [Nat.add].
  split.
  - intros Hex.
    destruct (restaurant_present db id Hex) as [r Hr].
    destruct (find_key_some Restaurant.id id _ r Hr) as [Hin Hid].
    exists r, (map (offering_in_detail db) (restaurant_pizzas_of_restaurant db r)).
    repeat split; try assumption.
    + rewrite (get_found _ db id r Hr), to_dict_restaurant_detail. reflexivity.
    + unfold restaurant_pizzas_of_restaurant. rewrite Hid.
      apply Forall2_map_r. intros rp Hrp.
      apply filter_In in Hrp. destruct Hrp as [Hrp _].
      destruct (pizza_present db _ (wf_pizza_ref db Hwf rp Hrp)) as [p Hp].
      destruct (find_key_some Pizza.id _ _ p Hp) as [Hpin Hpid].
      exists p. unfold offering_in_detail, nested_pizza. rewrite Hp.
      repeat split; assumption.
  - intros Hno Hi. apply get_absent; [now apply restaurant_absent | exact Hi].
Qed.

Lemma restaurant_by_id_get_detail_witness :
  (restaurant_exists seeded 1 ->
   exists r offerings,
     In r (restaurants seeded) /\ Restaurant.id r = 1
     /\ RestaurantByID_get 5 seeded 1 =
        Ok (make_response
              (Json (JObj (restaurant_scalars r ++
                           [("restaurant_pizzas", JArr offerings)])))
              200)
     /\ Forall2
          (fun rp o =>
             exists p,
               In p (pizzas seeded) /\ Pizza.id p = RestaurantPizza.pizza_id rp
               /\ o = JObj (offering_scalars rp ++ [("pizza", JObj (pizza_scalars p))])
               /\ has_key "restaurant" o = false
               /\ has_key "restaurant_pizzas" (JObj (pizza_scalars p)) = false)
          (filter (fun rp => RestaurantPizza.restaurant_id rp =? 1)
                  (restaurant_pizzas seeded))
          offerings)
  /\ (~ restaurant_exists seeded 1 ->
      in_int64 1 = true ->
      RestaurantByID_get 5 seeded 1 =
      Ok (make_response (Json (JObj [("error", JStr "Restaurant not found")])) 404)).
Proof.
  apply (restaurant_by_id_get_detail 5 seeded 1).
  - lia.
  - exact seeded_wf.
Defined.

(** C5.  A POST /restaurant_pizzas with an existing [restaurant_id], an
    existing [pizza_id] and a price within 1..30 answers 201; the payload has
    the new offering's [id, price, restaurant_id, pizza_id] and the nested
    [restaurant] and [pizza] objects, of [id, name, address] and
    [id, name, ingredients]: neither has a [restaurant_pizzas] key.  The
    offering is the one row the store gains. *)
Theorem post_valid_offering_201 :
  forall (fuel : nat) (db : DB) (data : payload) (pid rid : Z),
    (4 <= fuel)%nat ->
    pizza_id data = Some pid ->
    restaurant_id data = Some rid ->
    restaurant_exists db rid ->
    pizza_exists db pid ->
    price_within_range (price data) ->
    exists rp r p,
      RestaurantPizzas_post fuel db data =
      (mk_DB (restaurants db) (pizzas db) (restaurant_pizzas db ++ [rp]),
       make_response
         (Json (JObj (offering_scalars rp ++
                      [("restaurant", JObj (restaurant_scalars r));
                       ("pizza", JObj (pizza_scalars p))])))
         201)
      /\ In r (restaurants db) /\ Restaurant.id r = rid
      /\ In p (pizzas db) /\ Pizza.id p = pid
      /\ RestaurantPizza.restaurant_id rp = rid
      /\ RestaurantPizza.pizza_id rp = pid
      /\ to_float (price data) = Ok (RestaurantPizza.price rp)
      /\ ~ In (RestaurantPizza.id rp) (map RestaurantPizza.id (restaurant_pizzas db))
      /\ has_key "restaurant_pizzas" (JObj (restaurant_scalars r)) = false
      /\ has_key "restaurant_pizzas" (JObj (pizza_scalars p)) = false.
Proof.
  intros fuel db data pid rid Hf Hpid Hrid Hr Hz Hprice.
  destruct (fuel_from 4 fuel Hf) as [f ->]. cbn [Nat.add].
  destruct (restaurant_present db rid Hr) as [r Er].
  destruct (pizza_present db pid Hz) as [p Ep].
  destruct (find_key_some Restaurant.id rid _ r Er) as [Hrin Hrid'].
  destruct (find_key_some Pizza.id pid _ p Ep) as [Hpin Hpid'].
  assert (Hfl : exists x, to_float (price data) = Ok x).
  { destruct (price data); cbn in Hprice; try contradiction; cbn; eauto. }
  destruct Hfl as [x Hx].
  assert (Hnn : price data <> JNull).
  { intros E. rewrite E in Hprice. exact Hprice. }
  set (rp := RestaurantPizza.mk
               (next_id (map RestaurantPizza.id (restaurant_pizzas db))) x rid pid).
  exists rp, r, p.
  repeat split; try assumption; try reflexivity.
  - rewrite (post_found _ db data pid rid r p Hnn Hpid Hrid Er Ep).
    unfold post_try, RestaurantPizza.init.
    rewrite (validate_price_within _ Hprice). cbn [bind].
    unfold insert_restaurant_pizza.
    cbn [RestaurantPizza.new_price RestaurantPizza.new_pizza_id
         RestaurantPizza.new_restaurant_id].
    rewrite Hx. cbn [bind]. fold rp.
    rewrite (serialize_offering_created f _ rp r p); [reflexivity | exact Er | exact Ep].
  - apply next_id_fresh.
Qed.

Lemma post_valid_offering_201_witness :
  exists rp r p,
    RestaurantPizzas_post 4 seeded (mk_payload (JFloat (FFin (25 # 2))) (Some 3) (Some 1)) =
    (mk_DB (restaurants seeded) (pizzas seeded) (restaurant_pizzas seeded ++ [rp]),
     make_response
       (Json (JObj (offering_scalars rp ++
                    [("restaurant", JObj (restaurant_scalars r));
                     ("pizza", JObj (pizza_scalars p))])))
       201)
    /\ In r (restaurants seeded) /\ Restaurant.id r = 1
    /\ In p (pizzas seeded) /\ Pizza.id p = 3
    /\ RestaurantPizza.restaurant_id rp = 1
    /\ RestaurantPizza.pizza_id rp = 3
    /\ to_float (JFloat (FFin (25 # 2))) = Ok (RestaurantPizza.price rp)
    /\ ~ In (RestaurantPizza.id rp) (map RestaurantPizza.id (restaurant_pizzas seeded))
    /\ has_key "restaurant_pizzas" (JObj (restaurant_scalars r)) = false
    /\ has_key "restaurant_pizzas" (JObj (pizza_scalars p)) = false.
Proof.
  apply (post_valid_offering_201
           4 seeded (mk_payload (JFloat (FFin (25 # 2))) (Some 3) (Some 1)) 3 1).
  - lia.
  - reflexivity.
  - reflexivity.
  - unfold restaurant_exists. simpl. now left.
  - unfold pizza_exists. simpl. tauto.
  - simpl. split; discriminate.
Defined.

(** ** Keys and references under the writes *)

Lemma NoDup_map_filter {A B : Type} (key : A -> B) (keep : A -> bool) (l : list A) :
  NoDup (map key l) -> NoDup (map key (filter keep l)).
Proof.
  induction l as [|a l IH]; cbn [map filter]; intros H; [constructor|].
  inversion H as [|? ? Hnot H']; subst.
  destruct (keep a); cbn [map]; [constructor|]; auto.
  intros Hin. apply Hnot.
  apply in_map_iff in Hin. destruct Hin as [b [E Hb]].
  apply filter_In in Hb. rewrite <- E. apply in_map. tauto.
Qed.

Lemma NoDup_snoc {A : Type} (l : list A) (x : A) :
  NoDup l -> ~ In x l -> NoDup (l ++ [x]).
Proof.
  induction l as [|a l IH]; cbn [app]; intros H Hx.
  - constructor; [tauto | constructor].
  - inversion H as [|? ? Hnot H']; subst.
    constructor.
    + rewrite in_app_iff. cbn [In]. intros [Ha|[Ha|[]]]; [tauto|].
      apply Hx. now left.
    + apply IH; [assumption|]. intros Hin. apply Hx. now right.
Qed.

Lemma key_injective {A : Type} (key : A -> Z) (l : list A) (a b : A) :
  NoDup (map key l) -> In a l -> In b l -> key a = key b -> a = b.
Proof.
  intros ND Ha Hb E.
  pose proof (find_key_unique key l a ND Ha) as Fa.
  pose proof (find_key_unique key l b ND Hb) as Fb.
  rewrite E in Fa. congruence.
Qed.

Lemma delete_commit_wf (db : DB) (restaurant : Restaurant.t) (db' : DB) :
  db_wf db -> delete_commit db restaurant = Ok db' -> db_wf db'.
Proof.
  intros Hwf H. unfold delete_commit in H. inversion H; subst db'; clear H.
  constructor; cbn [restaurants pizzas restaurant_pizzas].
  - apply NoDup_map_filter, (wf_restaurant_ids db Hwf).
  - apply (wf_pizza_ids db Hwf).
  - apply NoDup_map_filter, (wf_offering_ids db Hwf).
  - intros rp Hrp. apply filter_In in Hrp. destruct Hrp as [Hrp Hne].
    apply negb_true_iff, Z.eqb_neq in Hne.
    pose proof (wf_restaurant_ref db Hwf rp Hrp) as Hex.
    unfold restaurant_exists in *. cbn [restaurants].
    apply in_map_iff in Hex. destruct Hex as [r [E Hr]].
    rewrite <- E. apply in_map. apply filter_In. split; [assumption|].
    apply negb_true_iff, Z.eqb_neq. congruence.
  - intros rp Hrp. apply filter_In in Hrp. destruct Hrp as [Hrp _].
    apply (wf_pizza_ref db Hwf rp Hrp).
Qed.

Lemma insert_restaurant_pizza_wf (db : DB) (p : RestaurantPizza.pending)
      (db' : DB) (row : RestaurantPizza.t) :
  db_wf db ->
  restaurant_exists db (RestaurantPizza.new_restaurant_id p) ->
  pizza_exists db (RestaurantPizza.new_pizza_id p) ->
  insert_restaurant_pizza db p = Ok (db', row) ->
  db_wf db'.
Proof.
  intros Hwf Hr Hp H. unfold insert_restaurant_pizza in H.
  destruct (to_float (RestaurantPizza.new_price p)) as [x|e]; cbn [bind] in H;
    [|discriminate].
  inversion H; subst db' row; clear H.
  constructor; cbn [restaurants pizzas restaurant_pizzas].
  - apply (wf_restaurant_ids db Hwf).
  - apply (wf_pizza_ids db Hwf).
  - rewrite map_app. cbn [map RestaurantPizza.id].
    apply NoDup_snoc; [apply (wf_offering_ids db Hwf) | apply next_id_fresh].
  - intros rp Hrp. apply in_app_iff in Hrp. destruct Hrp as [Hrp|[<-|[]]].
    + apply (wf_restaurant_ref db Hwf rp Hrp).
    + exact Hr.
  - intros rp Hrp. apply in_app_iff in Hrp. destruct Hrp as [Hrp|[<-|[]]].
    + apply (wf_pizza_ref db Hwf rp Hrp).
    + exact Hp.
Qed.

Lemma post_except_store (db : DB) (e : exn) : fst (post_except db e) = db.
Proof. destruct e; reflexivity. Qed.

(** What a POST can do to the store: nothing, or one INSERT of an offering
    whose two references exist. *)
Lemma post_store (fuel : nat) (db : DB) (data : payload) :
  fst (RestaurantPizzas_post fuel db data) = db
  \/ exists p row db',
       insert_restaurant_pizza db p = Ok (db', row)
       /\ restaurant_exists db (RestaurantPizza.new_restaurant_id p)
       /\ pizza_exists db (RestaurantPizza.new_pizza_id p)
       /\ fst (RestaurantPizzas_post fuel db data) = db'.
Proof.
  destruct (price data) eqn:Ep.
  1: { left. rewrite post_missing by (left; exact Ep). reflexivity. }
  all: assert (Hnn : price data <> JNull) by (rewrite Ep; discriminate); clear Ep.
  all: destruct (pizza_id data) as [pid|] eqn:Epid;
    [|left; rewrite post_missing by (right; left; exact Epid); reflexivity].
  all: destruct (restaurant_id data) as [rid|] eqn:Erid;
    [|left; rewrite post_missing by (right; right; exact Erid); reflexivity].
  all: destruct (Restaurant_row db rid) as [r|] eqn:Er;
    [|left;
      destruct (post_unfound fuel db data pid rid Hnn Epid Erid (or_introl Er))
        as [E|[E|[E _]]]; rewrite E; reflexivity].
  all: destruct (Pizza_row db pid) as [pz|] eqn:Ez;
    [|left;
      destruct (post_unfound fuel db data pid rid Hnn Epid Erid (or_intror Ez))
        as [E|[E|[E _]]]; rewrite E; reflexivity].
  all: rewrite (post_found fuel db data pid rid r pz Hnn Epid Erid Er Ez).
  all: unfold post_try, RestaurantPizza.init.
  all: destruct (RestaurantPizza.validate_price (price data)) as [v|e] eqn:Ev;
    cbn [bind]; [|left; apply post_except_store].
  all: destruct (insert_restaurant_pizza db (RestaurantPizza.mk_pending v pid rid))
    as [[db' row]|e] eqn:Ei; [|left; apply post_except_store].
  all: right; exists (RestaurantPizza.mk_pending v pid rid), row, db'.
  all: cbn [RestaurantPizza.new_restaurant_id RestaurantPizza.new_pizza_id].
  all: repeat split;
    [ exact Ei
    | destruct (find_key_some Restaurant.id rid _ r Er) as [Hin <-];
      now apply in_map
    | destruct (find_key_some Pizza.id pid _ pz Ez) as [Hin <-];
      now apply in_map
    | destruct (to_dict fuel db' (MRestaurantPizza row) []) as [j|e];
      cbn [bind]; [reflexivity | apply post_except_store] ].
Qed.

Lemma post_wf (fuel : nat) (db : DB) (data : payload) :
  db_wf db -> db_wf (fst (RestaurantPizzas_post fuel db data)).
Proof.
  intros Hwf.
  destruct (post_store fuel db data) as [->|[p [row [db' [Hi [Hr [Hp ->]]]]]]].
  - assumption.
  - now apply (insert_restaurant_pizza_wf db p db' row).
Qed.

(** C6.  DELETE /restaurants/{id}, for an id in the store, answers 204 with
    an empty body and, in the one transition, removes the restaurant and
    every offering of it: none of their ids is found afterwards, the rows
    that remain are those of the other restaurants, as many as there were
    less the N removed, and every remaining offering still references an
    existing restaurant and pizza. *)
Theorem delete_restaurant_cascades :
  forall (db : DB) (id : Z),
    db_wf db ->
    restaurant_exists db id ->
    exists db',
      RestaurantByID_delete db id = (db', make_response (Text "") 204)
      /\ Restaurant_row db' id = None
      /\ (forall rp, In rp (restaurant_pizzas db) ->
                     RestaurantPizza.restaurant_id rp = id ->
                     RestaurantPizza_row db' (RestaurantPizza.id rp) = None)
      /\ (forall rp, In rp (restaurant_pizzas db') <->
                     In rp (restaurant_pizzas db)
                     /\ RestaurantPizza.restaurant_id rp <> id)
      /\ (forall r, In r (restaurants db') <->
                    In r (restaurants db) /\ Restaurant.id r <> id)
      /\ (List.length (restaurant_pizzas db')
          + List.length (filter (fun rp => (RestaurantPizza.restaurant_id rp =? id)%Z)
                           (restaurant_pizzas db))
          = List.length (restaurant_pizzas db))%nat
      /\ pizzas db' = pizzas db
      /\ db_wf db'.
Proof.
  intros db id Hwf Hex.
  destruct (restaurant_present db id Hex) as [r Hr].
  destruct (find_key_some Restaurant.id id _ r Hr) as [Hin Hid].
  destruct (delete_commit db r) as [db'|e] eqn:Hd; [|discriminate Hd].
  pose proof (delete_commit_wf db r db' Hwf Hd) as Hwf'.
  exists db'.
  assert (Hrows : forall rp, In rp (restaurant_pizzas db') <->
                             In rp (restaurant_pizzas db)
                             /\ RestaurantPizza.restaurant_id rp <> id).
  { intros rp. unfold delete_commit in Hd. inversion Hd; subst db'.
    cbn [restaurant_pizzas]. rewrite filter_In, negb_true_iff, Z.eqb_neq, Hid.
    reflexivity. }
  assert (Hrest : forall r0, In r0 (restaurants db') <->
                             In r0 (restaurants db) /\ Restaurant.id r0 <> id).
  { intros r0. unfold delete_commit in Hd. inversion Hd; subst db'.
    cbn [restaurants]. rewrite filter_In, negb_true_iff, Z.eqb_neq, Hid.
    reflexivity. }
  split; [now rewrite (delete_found db id r Hr), Hd|].
  split.
  { apply find_key_none. intros Hc. apply in_map_iff in Hc.
    destruct Hc as [r0 [E Hr0]]. apply Hrest in Hr0. tauto. }
  split.
  { intros rp Hrp Hfk. apply find_key_none. intros Hc.
    apply in_map_iff in Hc. destruct Hc as [rp' [E Hrp']].
    apply Hrows in Hrp'. destruct Hrp' as [Hrp' Hne].
    apply Hne.
    rewrite (key_injective RestaurantPizza.id (restaurant_pizzas db) rp' rp
               (wf_offering_ids db Hwf) Hrp' Hrp E).
    exact Hfk. }
  split; [exact Hrows|].
  split; [exact Hrest|].
  split.
  { unfold delete_commit in Hd. inversion Hd; subst db'.
    cbn [restaurant_pizzas]. rewrite Hid.
    rewrite Nat.add_comm. apply filter_length. }
  split; [|exact Hwf'].
  unfold delete_commit in Hd. now inversion Hd.
Qed.

Lemma delete_restaurant_cascades_witness :
  exists db',
    RestaurantByID_delete seeded 1 = (db', make_response (Text "") 204)
    /\ Restaurant_row db' 1 = None
    /\ (forall rp, In rp (restaurant_pizzas seeded) ->
                   RestaurantPizza.restaurant_id rp = 1 ->
                   RestaurantPizza_row db' (RestaurantPizza.id rp) = None)
    /\ (forall rp, In rp (restaurant_pizzas db') <->
                   In rp (restaurant_pizzas seeded)
                   /\ RestaurantPizza.restaurant_id rp <> 1)
    /\ (forall r, In r (restaurants db') <->
                  In r (restaurants seeded) /\ Restaurant.id r <> 1)
    /\ (List.length (restaurant_pizzas db')
        + List.length (filter (fun rp => (RestaurantPizza.restaurant_id rp =? 1)%Z)
                         (restaurant_pizzas seeded))
        = List.length (restaurant_pizzas seeded))%nat
    /\ pizzas db' = pizzas seeded
    /\ db_wf db'.
Proof.
  apply (delete_restaurant_cascades seeded 1).
  - exact seeded_wf.
  - unfold restaurant_exists. simpl. now left.
Defined.

(** ** The restaurants that reach the store *)

Lemma truthy_true (s : string) : truthy s = true <-> s <> "".
Proof. unfold truthy. rewrite negb_true_iff. apply String.eqb_neq. Qed.

Lemma validate_name_ok (name v : string) :
  Restaurant.validate_name name = Ok v ->
  v = name /\ name <> "" /\ 1 <= len name <= 50.
Proof.
  unfold Restaurant.validate_name.
  destruct (truthy name) eqn:Et; cbn [negb]; [|discriminate].
  destruct ((1 <=? len name) && (len name <=? 50)) eqn:El; cbn [negb]; [|discriminate].
  intros H. inversion H; subst v.
  apply truthy_true in Et. apply andb_true_iff in El. destruct El as [E1 E2].
  apply Z.leb_le in E1, E2. auto.
Qed.

Lemma validate_address_ok (address v : string) :
  Restaurant.validate_address address = Ok v -> v = address /\ address <> "".
Proof.
  unfold Restaurant.validate_address.
  destruct (truthy address) eqn:Et; cbn [negb]; [|discriminate].
  intros H. inversion H; subst v. apply truthy_true in Et. auto.
Qed.

Lemma init_fields (name address : option string) (p : Restaurant.pending) :
  Restaurant.init name address = Ok p ->
  Restaurant.new_name p = name /\ Restaurant.new_address p = address
  /\ (forall n, name = Some n -> n <> "" /\ 1 <= len n <= 50)
  /\ (forall a, address = Some a -> a <> "").
Proof.
  unfold Restaurant.init. intros H.
  destruct name as [n|]; destruct address as [a|]; cbn [bind] in H.
  - destruct (Restaurant.validate_name n) as [n'|] eqn:En; cbn [bind] in H;
      [|discriminate].
    destruct (Restaurant.validate_address a) as [a'|] eqn:Ea; cbn [bind] in H;
      [|discriminate].
    apply validate_name_ok in En. apply validate_address_ok in Ea.
    destruct En as [-> [? ?]]. destruct Ea as [-> ?].
    inversion H; subst p. cbn.
    split; [reflexivity|]. split; [reflexivity|].
    split; intros ? E; inversion E; subst; auto.
  - destruct (Restaurant.validate_name n) as [n'|] eqn:En; cbn [bind] in H;
      [|discriminate].
    apply validate_name_ok in En. destruct En as [-> [? ?]].
    inversion H; subst p. cbn.
    split; [reflexivity|]. split; [reflexivity|].
    split; intros ? E; inversion E; subst; auto.
  - destruct (Restaurant.validate_address a) as [a'|] eqn:Ea; cbn [bind] in H;
      [|discriminate].
    apply validate_address_ok in Ea. destruct Ea as [-> ?].
    inversion H; subst p. cbn.
    split; [reflexivity|]. split; [reflexivity|].
    split; intros ? E; inversion E; subst; auto.
  - inversion H; subst p. cbn.
    split; [reflexivity|]. split; [reflexivity|].
    split; intros ? E; discriminate E.
Qed.

Lemma existsb_eqb_false (s : string) (l : list string) :
  existsb (String.eqb s) l = false -> ~ In s l.
Proof.
  intros H Hin.
  assert (E : existsb (String.eqb s) l = true).
  { apply existsb_exists. exists s. split; [assumption | apply String.eqb_refl]. }
  congruence.
Qed.

Lemma existsb_eqb_true (s : string) (l : list string) :
  In s l -> existsb (String.eqb s) l = true.
Proof.
  intros Hin. apply existsb_exists. exists s.
  split; [assumption | apply String.eqb_refl].
Qed.

(** What a committed INSERT of a restaurant adds. *)
Lemma insert_restaurant_row (db db' : DB) (p : Restaurant.pending) :
  insert_restaurant db p = Ok db' ->
  exists name address,
    Restaurant.new_name p = Some name /\ Restaurant.new_address p = Some address
    /\ ~ In name (map Restaurant.name (restaurants db))
    /\ db' = mk_DB (restaurants db ++
                    [Restaurant.mk (next_id (map Restaurant.id (restaurants db)))
                                   name address])
                   (pizzas db) (restaurant_pizzas db).
Proof.
  unfold insert_restaurant. intros H.
  destruct (Restaurant.new_name p) as [n|]; cbn [not_null bind] in H; [|discriminate].
  destruct (Restaurant.new_address p) as [a|]; cbn [not_null bind] in H; [|discriminate].
  destruct (existsb (String.eqb n) (map Restaurant.name (restaurants db))) eqn:E;
    [discriminate|].
  inversion H. exists n, a. repeat split. now apply existsb_eqb_false.
Qed.

Lemma insert_pizza_row (db db' : DB) (p : Pizza.pending) :
  insert_pizza db p = Ok db' ->
  exists row,
    Pizza.id row = next_id (map Pizza.id (pizzas db))
    /\ db' = mk_DB (restaurants db) (pizzas db ++ [row]) (restaurant_pizzas db).
Proof.
  unfold insert_pizza. intros H.
  destruct (Pizza.new_name p) as [n|]; cbn [not_null bind] in H; [|discriminate].
  destruct (Pizza.new_ingredients p) as [i|]; cbn [not_null bind] in H; [|discriminate].
  inversion H.
  exists (Pizza.mk (next_id (map Pizza.id (pizzas db))) n i).
  split; reflexivity.
Qed.

Lemma post_restaurants (fuel : nat) (db : DB) (data : payload) :
  restaurants (fst (RestaurantPizzas_post fuel db data)) = restaurants db.
Proof.
  destruct (post_store fuel db data) as [->|[p [row [db' [Hi [_ [_ ->]]]]]]];
    [reflexivity|].
  unfold insert_restaurant_pizza in Hi.
  destruct (to_float (RestaurantPizza.new_price p)); cbn [bind] in Hi;
    [|discriminate].
  now inversion Hi.
Qed.

Lemma delete_restaurants (db : DB) (id : Z) :
  exists keep,
    restaurants (fst (RestaurantByID_delete db id)) = filter keep (restaurants db).
Proof.
  destruct (Restaurant_row db id) as [r|] eqn:Er.
  - rewrite (delete_found db id r Er). eexists. reflexivity.
  - exists (fun _ => true). rewrite (delete_unfound_store db id Er).
    symmetry. apply forallb_filter_id. now apply forallb_forall.
Qed.

Lemma step_restaurants_valid (db db' : DB) :
  step db db' -> restaurants_valid db -> restaurants_valid db'.
Proof.
  intros Hs [Hf Hn]. destruct Hs as [db|db name address p db' Hi Hc|
                                     db name ing p db' Hi Hc|db fuel data|db id].
  - split; constructor.
  - apply insert_restaurant_row in Hc.
    destruct Hc as [n [a [En [Ea [Hfresh ->]]]]].
    apply init_fields in Hi. destruct Hi as [Hn' [Ha' [Hvn Hva]]].
    rewrite En in Hn'. rewrite Ea in Ha'.
    split; cbn [restaurants].
    + apply Forall_app. split; [assumption|]. constructor; [|constructor].
      unfold restaurant_fields_valid. cbn.
      destruct (Hvn n (eq_sym Hn')). pose proof (Hva a (eq_sym Ha')). auto.
    + rewrite map_app. cbn [map Restaurant.name]. now apply NoDup_snoc.
  - apply insert_pizza_row in Hc. destruct Hc as [row [_ ->]]. now split.
  - unfold restaurants_valid. rewrite post_restaurants. now split.
  - destruct (delete_restaurants db id) as [keep E].
    unfold restaurants_valid. rewrite E. split.
    + apply Forall_forall. intros r Hr. apply filter_In in Hr.
      rewrite Forall_forall in Hf. apply Hf. tauto.
    + now apply NoDup_map_filter.
Qed.

Lemma reachable_restaurants_valid (db : DB) :
  reachable db -> restaurants_valid db.
Proof.
  induction 1 as [|db db' Hr IH Hs].
  - split; constructor.
  - now apply (step_restaurants_valid db db').
Qed.

Lemma insert_restaurant_duplicate (db : DB) (p : Restaurant.pending) (name : string) :
  Restaurant.new_name p = Some name ->
  In name (map Restaurant.name (restaurants db)) ->
  exists msg, insert_restaurant db p = Raise (IntegrityError msg).
Proof.
  intros En Hin. unfold insert_restaurant. rewrite En. cbn [not_null bind].
  destruct (Restaurant.new_address p) as [a|]; cbn [not_null bind].
  - rewrite (existsb_eqb_true _ _ Hin). eauto.
  - eauto.
Qed.

(** C2, as stated, fails on two counts.  No validator bounds the length of
    [address], and the store does not either: a restaurant with an address
    of 101 characters is constructed and committed.  And no validator looks
    at the other restaurants: the constructor lets a name through that is
    already in the store. *)
Lemma restaurant_long_address_and_duplicate_name_accepted :
  ~ (forall db : DB,
        reachable db ->
        forall r, In r (restaurants db) -> len (Restaurant.address r) <= 100)
  /\ ~ (forall (db : DB) (name address : string),
           reachable db ->
           In name (map Restaurant.name (restaurants db)) ->
           exists e, Restaurant.init (Some name) (Some address) = Raise e).
Proof.
  pose (long := repeat_char "a"%char 101).
  pose (db1 := mk_DB [Restaurant.mk 1 "A" long] [] []).
  assert (R : reachable db1).
  { apply (reachable_step empty_db db1 reachable_empty).
    apply (step_add_restaurant empty_db (Some "A") (Some long)
             (Restaurant.mk_pending (Some "A") (Some long)) db1);
      reflexivity. }
  split.
  - intros H.
    specialize (H db1 R (Restaurant.mk 1 "A" long) (or_introl eq_refl)).
    vm_compute in H. apply H. reflexivity.
  - intros H.
    destruct (H db1 "A" "1 Main Street" R (or_introl eq_refl)) as [e He].
    discriminate He.
Qed.

(** C2, amended.  In every store that the program's writes can reach, each
    restaurant has a non-empty name of at most 50 characters and a non-empty
    address, and no two restaurants have the same name.  The rules on the
    single fields are enforced by the constructor, whatever the store: it
    raises unless they hold.  That names are unique is enforced by the store,
    whose INSERT of a name that is already there fails with an integrity
    error. *)
Theorem restaurant_constraints_enforced :
  forall db : DB,
    reachable db ->
    (Forall (fun r => Restaurant.name r <> ""
                      /\ 1 <= len (Restaurant.name r) <= 50
                      /\ Restaurant.address r <> "")
            (restaurants db)
     /\ NoDup (map Restaurant.name (restaurants db)))
    /\ (forall name address p,
           Restaurant.init (Some name) (Some address) = Ok p ->
           name <> "" /\ 1 <= len name <= 50 /\ address <> "")
    /\ (forall p name,
           Restaurant.new_name p = Some name ->
           In name (map Restaurant.name (restaurants db)) ->
           exists msg, insert_restaurant db p = Raise (IntegrityError msg)).
Proof.
  intros db R. split; [|split].
  - exact (reachable_restaurants_valid db R).
  - intros name address p H. apply init_fields in H.
    destruct H as [_ [_ [Hn Ha]]].
    destruct (Hn name eq_refl). pose proof (Ha address eq_refl). auto.
  - intros p name. apply insert_restaurant_duplicate.
Qed.

Lemma restaurant_constraints_enforced_witness :
  (Forall (fun r => Restaurant.name r <> ""
                    /\ 1 <= len (Restaurant.name r) <= 50
                    /\ Restaurant.address r <> "")
          (restaurants (mk_DB [Restaurant.mk 1 "Karen's Pizza Shack" "123 Pizza Lane"] [] []))
   /\ NoDup (map Restaurant.name
                 (restaurants (mk_DB [Restaurant.mk 1 "Karen's Pizza Shack" "123 Pizza Lane"] [] []))))
  /\ (forall name address p,
         Restaurant.init (Some name) (Some address) = Ok p ->
         name <> "" /\ 1 <= len name <= 50 /\ address <> "")
  /\ (forall p name,
         Restaurant.new_name p = Some name ->
         In name (map Restaurant.name
                      (restaurants (mk_DB [Restaurant.mk 1 "Karen's Pizza Shack" "123 Pizza Lane"] [] []))) ->
         exists msg,
           insert_restaurant
             (mk_DB [Restaurant.mk 1 "Karen's Pizza Shack" "123 Pizza Lane"] [] []) p
           = Raise (IntegrityError msg)).
Proof.
  apply (restaurant_constraints_enforced
           (mk_DB [Restaurant.mk 1 "Karen's Pizza Shack" "123 Pizza Lane"] [] [])).
  apply (reachable_step empty_db _ reachable_empty).
  apply (step_add_restaurant
           empty_db (Some "Karen's Pizza Shack") (Some "123 Pizza Lane")
           (Restaurant.mk_pending (Some "Karen's Pizza Shack") (Some "123 Pizza Lane")));
    reflexivity.
Defined.

(** Each write keeps the store well formed. *)
Lemma step_wf (db db' : DB) : step db db' -> db_wf db -> db_wf db'.
Proof.
  intros Hs Hwf. destruct Hs as [db|db name address p db' Hi Hc|
                                 db name ing p db' Hi Hc|db fuel data|db id].
  - constructor; cbn; try constructor; intros rp [].
  - apply insert_restaurant_row in Hc.
    destruct Hc as [n [a [_ [_ [_ ->]]]]].
    constructor; cbn [restaurants pizzas restaurant_pizzas].
    + rewrite map_app. cbn [map Restaurant.id].
      apply NoDup_snoc; [apply (wf_restaurant_ids db Hwf) | apply next_id_fresh].
    + apply (wf_pizza_ids db Hwf).
    + apply (wf_offering_ids db Hwf).
    + intros rp Hrp. unfold restaurant_exists. cbn [restaurants].
      rewrite map_app, in_app_iff. left. apply (wf_restaurant_ref db Hwf rp Hrp).
    + apply (wf_pizza_ref db Hwf).
  - apply insert_pizza_row in Hc. destruct Hc as [row [Hid ->]].
    constructor; cbn [restaurants pizzas restaurant_pizzas].
    + apply (wf_restaurant_ids db Hwf).
    + rewrite map_app. cbn [map]. rewrite Hid.
      apply NoDup_snoc; [apply (wf_pizza_ids db Hwf) | apply next_id_fresh].
    + apply (wf_offering_ids db Hwf).
    + apply (wf_restaurant_ref db Hwf).
    + intros rp Hrp. unfold pizza_exists. cbn [pizzas].
      rewrite map_app, in_app_iff. left. apply (wf_pizza_ref db Hwf rp Hrp).
  - now apply post_wf.
  - destruct (Restaurant_row db id) as [r|] eqn:Er;
      [|now rewrite (delete_unfound_store db id Er)].
    rewrite (delete_found db id r Er).
    destruct (delete_commit db r) as [d|e] eqn:Hd; [|assumption].
    apply (delete_commit_wf db r d Hwf Hd).
Qed.

(** X13.  Every store the program's writes can reach is well formed: the
    primary keys of each table are distinct, and every offering references a
    restaurant and a pizza that are in the store.  No write leaves a join row
    without its restaurant or its pizza. *)
Lemma reachable_wf (db : DB) : reachable db -> db_wf db.
Proof.
  induction 1 as [|db db' Hr IH Hs].
  - constructor; cbn; try constructor; intros rp [].
  - now apply (step_wf db db').
Qed.

(** ** Further properties of the validators *)

Lemma float_in_range_dec (f : pyfloat) : in_range_float f \/ ~ in_range_float f.
Proof.
  destruct f as [q| | |]; cbn; try tauto.
  destruct (Qlt_le_dec q 1) as [H1|H1].
  - right. intros [H _]. apply (Qlt_not_le _ _ H1 H).
  - destruct (Qlt_le_dec 30 q) as [H2|H2].
    + right. intros [_ H]. apply (Qlt_not_le _ _ H2 H).
    + now left.
Qed.

Lemma validate_price_accepted (v : json) :
  price_accepted v -> RestaurantPizza.validate_price v = Ok v.
Proof.
  unfold RestaurantPizza.validate_price.
  destruct v as [| b | z | f | s | l | o];
    cbn [isinstance_int_float int_le_value value_le_int negb price_accepted];
    try contradiction.
  - intros ->. reflexivity.
  - intros [H1 H2]. apply Z.leb_le in H1, H2. now rewrite H1, H2.
  - intros H. apply float_range_reflect in H. now rewrite H.
Qed.

Lemma validate_price_ok_accepted (v v' : json) :
  RestaurantPizza.validate_price v = Ok v' -> price_accepted v.
Proof.
  intros H.
  destruct v as [| b | z | f | s | l | o]; cbn [price_accepted];
    try (cbn in H; discriminate H).
  - destruct b; [reflexivity | cbn in H; discriminate H].
  - destruct (Z.le_gt_cases 1 z) as [H1|H1]; [destruct (Z.le_gt_cases z 30) as [H2|H2]|];
      [lia | |];
      rewrite (validate_price_outside (JInt z)) in H by (cbn; lia); discriminate H.
  - destruct (float_in_range_dec f) as [Ha|Hn]; [exact Ha|].
    rewrite (validate_price_outside (JFloat f) Hn) in H. discriminate H.
Qed.


(** X1.  The price validator returns the value it is given, and it lets
    through exactly [True], the integers 1..30 and the finite floats within
    1..30: [False], NaN, the infinities, strings, lists, objects and [None]
    all raise. *)
Theorem validate_price_accepts_iff :
  forall v v' : json,
    RestaurantPizza.validate_price v = Ok v' <-> v' = v /\ price_accepted v.
Proof.
  intros v v'. unfold RestaurantPizza.validate_price. split.
  - destruct v as [| b | z | f | s | l | o];
      cbn [isinstance_int_float int_le_value value_le_int negb price_accepted];
      try discriminate.
    + destruct b; cbn; [|discriminate]. intros H; inversion H; auto.
    + destruct ((1 <=? z) && (z <=? 30)) eqn:E; cbn [negb]; [|discriminate].
      intros H; inversion H. apply andb_true_iff in E. destruct E as [E1 E2].
      apply Z.leb_le in E1, E2. auto.
    + destruct (float_le (FFin (inject_Z 1)) f && float_le f (FFin (inject_Z 30)))
        eqn:E; cbn [negb]; [|discriminate].
      intros H; inversion H. apply float_range_reflect in E. auto.
  - intros [-> H].
    destruct v as [| b | z | f | s | l | o];
      cbn [isinstance_int_float int_le_value value_le_int negb price_accepted] in *;
      try contradiction.
    + subst b. reflexivity.
    + destruct H as [H1 H2]. apply Z.leb_le in H1, H2. now rewrite H1, H2.
    + apply float_range_reflect in H. now rewrite H.
Qed.

Lemma truthy_false (s : string) : truthy s = false <-> s = "".
Proof. unfold truthy. rewrite negb_false_iff. apply String.eqb_eq. Qed.

Lemma len_nonempty (s : string) : s <> "" -> 1 <= len s.
Proof.
  destruct s; [congruence|]. intros _. unfold len. cbn [String.length]. lia.
Qed.

Lemma validate_name_accepts (name : string) :
  name <> "" -> len name <= 50 -> Restaurant.validate_name name = Ok name.
Proof.
  intros Hn Hl. unfold Restaurant.validate_name.
  apply truthy_true in Hn as Ht. rewrite Ht. cbn [negb].
  pose proof (len_nonempty name Hn) as H1.
  apply Z.leb_le in H1, Hl. now rewrite H1, Hl.
Qed.

Lemma validate_name_too_long (name : string) :
  50 < len name ->
  Restaurant.validate_name name =
  Raise (ValueError "Restaurant name must be between 1 and 50 characters.").
Proof.
  intros Hl. unfold Restaurant.validate_name.
  assert (Hn : name <> "") by (intros ->; cbn in Hl; lia).
  apply truthy_true in Hn. rewrite Hn. cbn [negb].
  apply Z.leb_gt in Hl. rewrite Hl, andb_false_r. reflexivity.
Qed.

(** X2.  The constructor of [Restaurant], given both keywords, succeeds
    exactly when the name is non-empty and at most 50 characters long and
    the address is non-empty, and then keeps both as given.  The name is
    checked first: an empty name raises "Restaurant must have a name." and a
    name of more than 50 characters raises the length error, whatever the
    address; the address error is raised only under a valid name. *)
Theorem restaurant_init_accepts_iff :
  forall name address : string,
    (forall p,
        Restaurant.init (Some name) (Some address) = Ok p <->
        p = Restaurant.mk_pending (Some name) (Some address)
        /\ name <> "" /\ len name <= 50 /\ address <> "")
    /\ (name = "" ->
        Restaurant.init (Some name) (Some address) =
        Raise (ValueError "Restaurant must have a name."))
    /\ (50 < len name ->
        Restaurant.init (Some name) (Some address) =
        Raise (ValueError "Restaurant name must be between 1 and 50 characters."))
    /\ (name <> "" -> len name <= 50 -> address = "" ->
        Restaurant.init (Some name) (Some address) =
        Raise (ValueError "Restaurant must have an address.")).
Proof.
  intros name address. split; [|split; [|split]].
  - intros p. split.
    + intros H. pose proof (init_fields _ _ _ H) as [Hn [Ha [Hvn Hva]]].
      destruct (Hvn name eq_refl) as [H1 H2]. pose proof (Hva address eq_refl).
      destruct p as [n a]. cbn in Hn, Ha. subst n a.
      repeat split; auto; lia.
    + intros [-> [Hn [Hl Ha]]]. unfold Restaurant.init.
      rewrite (validate_name_accepts name Hn Hl). cbn [bind].
      unfold Restaurant.validate_address.
      apply truthy_true in Ha. rewrite Ha. reflexivity.
  - intros ->. reflexivity.
  - intros Hl. unfold Restaurant.init.
    now rewrite (validate_name_too_long name Hl).
  - intros Hn Hl ->. unfold Restaurant.init.
    rewrite (validate_name_accepts name Hn Hl). reflexivity.
Qed.

(** X3.  The constructor of [Pizza], given both keywords, succeeds exactly
    when the name and the ingredients are non-empty, and keeps both as given:
    neither validator bounds a length.  An empty name raises "Pizza must have
    a name.", whatever the ingredients. *)
Theorem pizza_init_accepts_iff :
  forall name ingredients : string,
    (forall p,
        Pizza.init (Some name) (Some ingredients) = Ok p <->
        p = Pizza.mk_pending (Some name) (Some ingredients)
        /\ name <> "" /\ ingredients <> "")
    /\ (name = "" ->
        Pizza.init (Some name) (Some ingredients) =
        Raise (ValueError "Pizza must have a name."))
    /\ (name <> "" -> ingredients = "" ->
        Pizza.init (Some name) (Some ingredients) =
        Raise (ValueError "Pizza must have ingredients.")).
Proof.
  intros name ingredients.
  unfold Pizza.init, Pizza.validate_name, Pizza.validate_ingredients.
  destruct (truthy name) eqn:Tn; destruct (truthy ingredients) eqn:Ti;
    cbn [negb bind];
    try apply truthy_true in Tn; try apply truthy_true in Ti;
    try apply truthy_false in Tn; try apply truthy_false in Ti.
  - split; [|split]; try (intros; congruence).
    intros p. split; [intros H; inversion H; auto | intros [-> _]; reflexivity].
  - split; [|split]; try (intros; congruence).
    intros p. split; [discriminate | intros [_ [_ H]]; contradiction].
  - split; [|split]; try (intros; congruence).
    intros p. split; [discriminate | intros [_ [H _]]; contradiction].
  - split; [|split]; try (intros; congruence).
    intros p. split; [discriminate | intros [_ [H _]]; contradiction].
Qed.

(** ** Further properties of POST /restaurant_pizzas *)

Lemma accepted_to_float (v : json) :
  price_accepted v -> exists x, to_float v = Ok x.
Proof.
  destruct v; cbn; try contradiction; eauto.
Qed.

Lemma post_accepted (f : nat) (db : DB) (data : payload) (pid rid : Z)
      (r : Restaurant.t) (p : Pizza.t) (x : pyfloat) :
  pizza_id data = Some pid ->
  restaurant_id data = Some rid ->
  Restaurant_row db rid = Some r ->
  Pizza_row db pid = Some p ->
  price_accepted (price data) ->
  to_float (price data) = Ok x ->
  let rp := RestaurantPizza.mk
              (next_id (map RestaurantPizza.id (restaurant_pizzas db))) x rid pid in
  RestaurantPizzas_post (S (S (S (S f)))) db data =
  (with_offering db rp, make_response (Json (offering_created rp r p)) 201).
Proof.
  intros Hpid Hrid Er Ep Hacc Hx rp.
  assert (Hnn : price data <> JNull).
  { intros E. rewrite E in Hacc. exact Hacc. }
  rewrite (post_found _ db data pid rid r p Hnn Hpid Hrid Er Ep).
  unfold post_try, RestaurantPizza.init.
  rewrite (validate_price_accepted (price data) Hacc).
  cbn [bind]. unfold insert_restaurant_pizza.
  cbn [RestaurantPizza.new_price RestaurantPizza.new_pizza_id
       RestaurantPizza.new_restaurant_id].
  rewrite Hx. cbn [bind]. fold rp.
  rewrite (serialize_offering_created f _ rp r p); [reflexivity | exact Er | exact Ep].
Qed.

Lemma post_rejected (fuel : nat) (db : DB) (data : payload) (pid rid : Z)
      (r : Restaurant.t) (p : Pizza.t) :
  price data <> JNull ->
  pizza_id data = Some pid ->
  restaurant_id data = Some rid ->
  Restaurant_row db rid = Some r ->
  Pizza_row db pid = Some p ->
  ~ price_accepted (price data) ->
  RestaurantPizzas_post fuel db data = (db, validation_errors_response).
Proof.
  intros Hnn Hpid Hrid Er Ep Hrej.
  rewrite (post_found _ db data pid rid r p Hnn Hpid Hrid Er Ep).
  destruct (RestaurantPizza.validate_price (price data)) as [v|e] eqn:Ev.
  - apply validate_price_ok_accepted in Ev. tauto.
  - rewrite (post_try_invalid fuel db (price data) pid rid e Ev).
    destruct (validate_price_raises_ValueError _ _ Ev) as [msg ->]. reflexivity.
Qed.

Lemma price_accepted_dec (v : json) : price_accepted v \/ ~ price_accepted v.
Proof.
  destruct v as [| b | z | f | s | l | o]; cbn; try tauto.
  - destruct b; [now left | right; discriminate].
  - lia.
  - destruct f as [q| | |]; cbn; try tauto.
    destruct (Qlt_le_dec q 1) as [H1|H1].
    + right. intros [H _]. apply (Qlt_not_le _ _ H1 H).
    + destruct (Qlt_le_dec 30 q) as [H2|H2].
      * right. intros [_ H]. apply (Qlt_not_le _ _ H2 H).
      * now left.
Qed.

(** The outcomes of the handler under a recursion limit of 4 or more. *)
Lemma post_outcome (f : nat) (db : DB) (data : payload) :
  let res := RestaurantPizzas_post (S (S (S (S f)))) db data in
  res = (db, missing_fields_response)
  \/ res = (db, not_found_response "Restaurant")
  \/ res = (db, not_found_response "Pizza")
  \/ res = (db, validation_errors_response)
  \/ (res = (db, unhandled (OverflowError "Python int too large to convert to SQLite INTEGER"))
      /\ exists id,
           (restaurant_id data = Some id \/ pizza_id data = Some id)
           /\ in_int64 id = false)
  \/ exists rp r p,
       res = (with_offering db rp, make_response (Json (offering_created rp r p)) 201)
       /\ RestaurantPizza.id rp = next_id (map RestaurantPizza.id (restaurant_pizzas db))
       /\ restaurant_id data = Some (RestaurantPizza.restaurant_id rp)
       /\ pizza_id data = Some (RestaurantPizza.pizza_id rp)
       /\ Restaurant_row db (RestaurantPizza.restaurant_id rp) = Some r
       /\ Pizza_row db (RestaurantPizza.pizza_id rp) = Some p
       /\ price_accepted (price data)
       /\ to_float (price data) = Ok (RestaurantPizza.price rp).
Proof.
  intros res. subst res.
  destruct (price data) eqn:Ep.
  1: { left. apply post_missing. now left. }
  all: assert (Hnn : price data <> JNull) by (rewrite Ep; discriminate).
  all: rewrite <- Ep; clear Ep.
  all: destruct (pizza_id data) as [pid|] eqn:Epid;
    [|left; apply post_missing; right; now left].
  all: destruct (restaurant_id data) as [rid|] eqn:Erid;
    [|left; apply post_missing; right; now right].
  all: assert (Hun : Restaurant_row db rid = None \/ Pizza_row db pid = None ->
                     RestaurantPizzas_post (S (S (S (S f)))) db data
                     = (db, not_found_response "Restaurant")
                     \/ RestaurantPizzas_post (S (S (S (S f)))) db data
                        = (db, not_found_response "Pizza")
                     \/ (RestaurantPizzas_post (S (S (S (S f)))) db data
                         = (db, unhandled (OverflowError
                                  "Python int too large to convert to SQLite INTEGER"))
                         /\ exists id,
                              (Some rid = Some id \/ Some pid = Some id)
                              /\ in_int64 id = false))
    by (intros Hu;
        destruct (post_unfound (S (S (S (S f)))) db data pid rid Hnn Epid Erid Hu)
          as [E|[E|[E [Hi|Hi]]]];
        [ now left | right; now left
        | right; right; split; [exact E | exists rid; split; [now left | exact Hi]]
        | right; right; split; [exact E | exists pid; split; [now right | exact Hi]] ]).
  all: destruct (Restaurant_row db rid) as [r|] eqn:Er;
    [|destruct (Hun (or_introl eq_refl)) as [E|[E|E]];
      [ right; left; exact E
      | right; right; left; exact E
      | right; right; right; right; left; exact E ]].
  all: destruct (Pizza_row db pid) as [p|] eqn:Ez;
    [|destruct (Hun (or_intror eq_refl)) as [E|[E|E]];
      [ right; left; exact E
      | right; right; left; exact E
      | right; right; right; right; left; exact E ]].
  all: clear Hun.
  all: destruct (price_accepted_dec (price data)) as [Hacc|Hrej];
    [|right; right; right; left;
      apply (post_rejected _ db data pid rid r p); assumption].
  all: destruct (accepted_to_float _ Hacc) as [x Hx].
  all: right; right; right; right; right.
  all: exists (RestaurantPizza.mk
                 (next_id (map RestaurantPizza.id (restaurant_pizzas db))) x rid pid),
         r, p.
  all: split; [apply (post_accepted f db data pid rid r p x); assumption|].
  all: cbn [RestaurantPizza.id RestaurantPizza.restaurant_id
            RestaurantPizza.pizza_id RestaurantPizza.price].
  all: repeat split; assumption.
Qed.

(** X5.  For a POST /restaurant_pizzas that carries its three fields and
    references an existing restaurant and pizza, the answer is 201 exactly
    when the price is one the validator lets through: [true], an integer
    1..30 or a finite float within 1..30. *)
Theorem post_created_iff_price_accepted :
  forall (fuel : nat) (db : DB) (data : payload) (pid rid : Z),
    (4 <= fuel)%nat ->
    price data <> JNull ->
    pizza_id data = Some pid ->
    restaurant_id data = Some rid ->
    restaurant_exists db rid ->
    pizza_exists db pid ->
    (status_code (snd (RestaurantPizzas_post fuel db data)) = 201
     <-> price_accepted (price data)).
Proof.
  intros fuel db data pid rid Hf Hnn Hpid Hrid Hr Hp.
  destruct (fuel_from 4 fuel Hf) as [f ->]. cbn [Nat.add].
  destruct (restaurant_present db rid Hr) as [r Er].
  destruct (pizza_present db pid Hp) as [p Ep].
  split.
  - intros H. destruct (price_accepted_dec (price data)) as [Ha|Hn]; [assumption|].
    rewrite (post_rejected _ db data pid rid r p Hnn Hpid Hrid Er Ep Hn) in H.
    discriminate H.
  - intros Ha. destruct (accepted_to_float _ Ha) as [x Hx].
    now rewrite (post_accepted f db data pid rid r p x Hpid Hrid Er Ep Ha Hx).
Qed.

Lemma post_created_iff_price_accepted_witness :
  status_code (snd (RestaurantPizzas_post 4 seeded
                      (mk_payload (JBool true) (Some 2) (Some 3)))) = 201
  <-> price_accepted (JBool true).
Proof.
  apply (post_created_iff_price_accepted
           4 seeded (mk_payload (JBool true) (Some 2) (Some 3)) 2 3).
  - lia.
  - discriminate.
  - reflexivity.
  - reflexivity.
  - unfold restaurant_exists. simpl. tauto.
  - unfold pizza_exists. simpl. tauto.
Defined.

(** X6.  For a body that is an object whose ids, when given, are integers,
    POST /restaurant_pizzas has three kinds of outcome: it answers 201 and
    the store has gained exactly one offering, under a key that was not in
    use; or it answers 400 or 404 and the store is as it was; or an id of
    the request does not fit 64 bits, a lookup raises, the request is
    answered 500 and the store is as it was.  It never touches the
    restaurants or the pizzas. *)
Theorem post_status_and_store :
  forall (fuel : nat) (db : DB) (body_in : payload),
    (4 <= fuel)%nat ->
    let res := RestaurantPizzas_post fuel db body_in in
    (status_code (snd res) = 201
     /\ exists rp,
          fst res = mk_DB (restaurants db) (pizzas db) (restaurant_pizzas db ++ [rp])
          /\ ~ In (RestaurantPizza.id rp)
                  (map RestaurantPizza.id (restaurant_pizzas db)))
    \/ ((status_code (snd res) = 400 \/ status_code (snd res) = 404)
        /\ fst res = db)
    \/ (status_code (snd res) = 500
        /\ fst res = db
        /\ data (snd res) =
           Unhandled (OverflowError "Python int too large to convert to SQLite INTEGER")
        /\ exists id,
             (restaurant_id body_in = Some id \/ pizza_id body_in = Some id)
             /\ in_int64 id = false).
Proof.
  intros fuel db body_in Hf res. subst res.
  destruct (fuel_from 4 fuel Hf) as [f ->]. cbn [Nat.add].
  destruct (post_outcome f db body_in)
    as [E|[E|[E|[E|[[E Hid]|[rp [r [p [E [Hid _]]]]]]]]]]; rewrite E.
  - right; left. split; [left|]; reflexivity.
  - right; left. split; [right|]; reflexivity.
  - right; left. split; [right|]; reflexivity.
  - right; left. split; [left|]; reflexivity.
  - right; right. repeat split; try reflexivity. exact Hid.
  - left. split; [reflexivity|]. exists rp. split; [reflexivity|].
    rewrite Hid. apply next_id_fresh.
Qed.

Lemma post_status_and_store_witness :
  let res := RestaurantPizzas_post 4 seeded (mk_payload (JInt 7) (Some 2) (Some (2 ^ 63))) in
  (status_code (snd res) = 201
   /\ exists rp,
        fst res = mk_DB (restaurants seeded) (pizzas seeded)
                        (restaurant_pizzas seeded ++ [rp])
        /\ ~ In (RestaurantPizza.id rp)
                (map RestaurantPizza.id (restaurant_pizzas seeded)))
  \/ ((status_code (snd res) = 400 \/ status_code (snd res) = 404)
      /\ fst res = seeded)
  \/ (status_code (snd res) = 500
      /\ fst res = seeded
      /\ data (snd res) =
         Unhandled (OverflowError "Python int too large to convert to SQLite INTEGER")
      /\ exists id,
           (restaurant_id (mk_payload (JInt 7) (Some 2) (Some (2 ^ 63))) = Some id
            \/ pizza_id (mk_payload (JInt 7) (Some 2) (Some (2 ^ 63))) = Some id)
           /\ in_int64 id = false).
Proof.
  apply (post_status_and_store 4 seeded (mk_payload (JInt 7) (Some 2) (Some (2 ^ 63)))).
  lia.
Defined.

Lemma offerings_of_restaurant_snoc (db : DB) (rp : RestaurantPizza.t) (r : Restaurant.t) :
  RestaurantPizza.restaurant_id rp = Restaurant.id r ->
  restaurant_pizzas_of_restaurant (with_offering db rp) r =
  restaurant_pizzas_of_restaurant db r ++ [rp].
Proof.
  intros H. unfold restaurant_pizzas_of_restaurant, with_offering.
  cbn [restaurant_pizzas]. rewrite filter_app. cbn [filter].
  now rewrite H, Z.eqb_refl.
Qed.

Lemma offerings_of_restaurant_other (db : DB) (rp : RestaurantPizza.t) (r : Restaurant.t) :
  RestaurantPizza.restaurant_id rp <> Restaurant.id r ->
  restaurant_pizzas_of_restaurant (with_offering db rp) r =
  restaurant_pizzas_of_restaurant db r.
Proof.
  intros H. unfold restaurant_pizzas_of_restaurant, with_offering.
  cbn [restaurant_pizzas]. rewrite filter_app. cbn [filter].
  apply Z.eqb_neq in H. rewrite H. apply app_nil_r.
Qed.

(** X7.  An offering that has been created shows in the detail view of its
    restaurant: after a POST that is answered 201, GET /restaurants/{id} of
    the restaurant gives the payload it gave before with one more item at the
    end of [restaurant_pizzas], the new offering with its nested pizza. *)
Theorem post_then_get_shows_offering :
  forall (fuel : nat) (db : DB) (data : payload) (pid rid : Z),
    (5 <= fuel)%nat ->
    pizza_id data = Some pid ->
    restaurant_id data = Some rid ->
    restaurant_exists db rid ->
    pizza_exists db pid ->
    price_accepted (price data) ->
    exists r before rp p,
      RestaurantByID_get fuel db rid =
      Ok (make_response
            (Json (JObj (restaurant_scalars r ++
                         [("restaurant_pizzas", JArr before)]))) 200)
      /\ RestaurantByID_get fuel (fst (RestaurantPizzas_post fuel db data)) rid =
         Ok (make_response
               (Json (JObj (restaurant_scalars r ++
                            [("restaurant_pizzas",
                              JArr (before ++
                                    [JObj (offering_scalars rp ++
                                           [("pizza", JObj (pizza_scalars p))])]))])))
               200)
      /\ RestaurantPizza.restaurant_id rp = rid
      /\ RestaurantPizza.pizza_id rp = pid
      /\ Pizza.id p = pid
      /\ to_float (price data) = Ok (RestaurantPizza.price rp).
Proof.
  intros fuel db data pid rid Hf Hpid Hrid Hr Hp Hacc.
  destruct (fuel_from 5 fuel Hf) as [f ->]. cbn [Nat.add].
  destruct (restaurant_present db rid Hr) as [r Er].
  destruct (pizza_present db pid Hp) as [p Ep].
  destruct (find_key_some Restaurant.id rid _ r Er) as [_ Hrid'].
  destruct (find_key_some Pizza.id pid _ p Ep) as [_ Hpid'].
  destruct (accepted_to_float _ Hacc) as [x Hx].
  set (rp := RestaurantPizza.mk
               (next_id (map RestaurantPizza.id (restaurant_pizzas db))) x rid pid).
  exists r, (map (offering_in_detail db) (restaurant_pizzas_of_restaurant db r)), rp, p.
  split; [|split].
  - rewrite (get_found _ db rid r Er), to_dict_restaurant_detail. reflexivity.
  - rewrite (post_accepted (S f) db data pid rid r p x Hpid Hrid Er Ep Hacc Hx).
    cbn [fst]. fold rp.
    rewrite (get_found _ (with_offering db rp) rid r Er), to_dict_restaurant_detail.
    rewrite offerings_of_restaurant_snoc by (cbn; congruence).
    rewrite map_app. cbn [map].
    change (map (offering_in_detail (with_offering db rp)))
      with (map (offering_in_detail db)).
    unfold offering_in_detail at 2. unfold nested_pizza.
    change (Pizza_row (with_offering db rp) (RestaurantPizza.pizza_id rp))
      with (Pizza_row db pid).
    rewrite Ep. reflexivity.
  - repeat split; auto.
Qed.

Lemma post_then_get_shows_offering_witness :
  exists r before rp p,
    RestaurantByID_get 5 seeded 3 =
    Ok (make_response
          (Json (JObj (restaurant_scalars r ++
                       [("restaurant_pizzas", JArr before)]))) 200)
    /\ RestaurantByID_get
         5 (fst (RestaurantPizzas_post 5 seeded (mk_payload (JInt 9) (Some 1) (Some 3)))) 3 =
       Ok (make_response
             (Json (JObj (restaurant_scalars r ++
                          [("restaurant_pizzas",
                            JArr (before ++
                                  [JObj (offering_scalars rp ++
                                         [("pizza", JObj (pizza_scalars p))])]))])))
             200)
    /\ RestaurantPizza.restaurant_id rp = 3
    /\ RestaurantPizza.pizza_id rp = 1
    /\ Pizza.id p = 1
    /\ to_float (JInt 9) = Ok (RestaurantPizza.price rp).
Proof.
  apply (post_then_get_shows_offering
           5 seeded (mk_payload (JInt 9) (Some 1) (Some 3)) 1 3).
  - lia.
  - reflexivity.
  - reflexivity.
  - unfold restaurant_exists. simpl. tauto.
  - unfold pizza_exists. simpl. tauto.
  - simpl. lia.
Defined.

Lemma restaurants_get_rows (f : nat) (db : DB) :
  Restaurants_get (S (S f)) db =
  Ok (make_response
        (Json (JArr (map (fun r => JObj (restaurant_scalars r)) (restaurants db)))) 200).
Proof.
  unfold Restaurants_get.
  rewrite (for_each_map_ok _ (fun r => JObj (restaurant_scalars r)))
    by (intros r _; apply to_dict_restaurant_list).
  reflexivity.
Qed.

Lemma pizzas_get_rows (f : nat) (db : DB) :
  Pizzas_get (S (S f)) db =
  Ok (make_response
        (Json (JArr (map (fun p => JObj (pizza_scalars p)) (pizzas db)))) 200).
Proof.
  unfold Pizzas_get.
  rewrite (for_each_map_ok _ (fun p => JObj (pizza_scalars p)))
    by (intros p _; apply to_dict_pizza_list).
  reflexivity.
Qed.

Lemma get_detail_present (f : nat) (db : DB) (id : Z) (r : Restaurant.t) :
  Restaurant_row db id = Some r ->
  RestaurantByID_get (S (S (S (S (S f))))) db id =
  Ok (make_response
        (Json (JObj (restaurant_scalars r ++
                     [("restaurant_pizzas",
                       JArr (map (offering_in_detail db)
                                 (restaurant_pizzas_of_restaurant db r)))]))) 200).
Proof.
  intros H. now rewrite (get_found _ db id r H), to_dict_restaurant_detail.
Qed.

(** X8.  Creating an offering for one restaurant changes no other answer:
    after any POST /restaurant_pizzas, whatever its outcome, the detail view
    of every restaurant other than the one the request names, the list of
    restaurants and the list of pizzas are what they were. *)
Theorem post_leaves_other_views :
  forall (fuel : nat) (db : DB) (data : payload) (other : Z),
    (5 <= fuel)%nat ->
    restaurant_id data <> Some other ->
    let db' := fst (RestaurantPizzas_post fuel db data) in
    RestaurantByID_get fuel db' other = RestaurantByID_get fuel db other
    /\ Restaurants_get fuel db' = Restaurants_get fuel db
    /\ Pizzas_get fuel db' = Pizzas_get fuel db.
Proof.
  intros fuel db data other Hf Hne db'. subst db'.
  destruct (fuel_from 5 fuel Hf) as [f ->]. cbn [Nat.add].
  destruct (post_outcome (S f) db data)
    as [E|[E|[E|[E|[[E _]|[rp [r [p [E [_ [Hrid _]]]]]]]]]]]; rewrite E; cbn [fst];
    try (repeat split; reflexivity).
  assert (Hrp : RestaurantPizza.restaurant_id rp <> other) by congruence.
  split; [|split].
  - destruct (Restaurant_row db other) as [r'|] eqn:Er'.
    + destruct (find_key_some Restaurant.id other _ r' Er') as [_ Hid].
      rewrite (get_detail_present f db other r' Er').
      rewrite (get_detail_present f (with_offering db rp) other r' Er').
      rewrite offerings_of_restaurant_other by congruence.
      reflexivity.
    + unfold RestaurantByID_get, Restaurant_query_get.
      change (Restaurant_row (with_offering db rp) other)
        with (Restaurant_row db other).
      rewrite Er'. cbn [query_get]. destruct (in_int64 other); reflexivity.
  - now rewrite !restaurants_get_rows.
  - now rewrite !pizzas_get_rows.
Qed.

Lemma post_leaves_other_views_witness :
  let db' := fst (RestaurantPizzas_post 5 seeded (mk_payload (JInt 9) (Some 1) (Some 3))) in
  RestaurantByID_get 5 db' 1 = RestaurantByID_get 5 seeded 1
  /\ Restaurants_get 5 db' = Restaurants_get 5 seeded
  /\ Pizzas_get 5 db' = Pizzas_get 5 seeded.
Proof.
  apply (post_leaves_other_views 5 seeded (mk_payload (JInt 9) (Some 1) (Some 3)) 1).
  - lia.
  - discriminate.
Defined.

(** ** Further properties of DELETE /restaurants/{id} *)

(** The store a successful delete leaves. *)
Lemma delete_present (db : DB) (id : Z) (r : Restaurant.t) :
  Restaurant_row db id = Some r ->
  RestaurantByID_delete db id =
  (mk_DB (filter (fun r0 => negb (Restaurant.id r0 =? id)) (restaurants db))
         (pizzas db)
         (filter (fun rp => negb (RestaurantPizza.restaurant_id rp =? id))
                 (restaurant_pizzas db)),
   make_response (Text "") 204).
Proof.
  intros H. destruct (find_key_some Restaurant.id id _ r H) as [_ Hid].
  rewrite (delete_found db id r H). unfold delete_commit. now rewrite Hid.
Qed.

Lemma find_filter_other {A : Type} (key : A -> Z) (id other : Z) (l : list A) :
  other <> id ->
  find (fun a => key a =? other) (filter (fun a => negb (key a =? id)) l) =
  find (fun a => key a =? other) l.
Proof.
  intros Hne. induction l as [|a l IH]; cbn [filter find]; [reflexivity|].
  destruct (Z.eqb_spec (key a) id) as [E|E]; cbn [negb find].
  - destruct (Z.eqb_spec (key a) other) as [E'|E']; [congruence | exact IH].
  - destruct (key a =? other); [reflexivity | exact IH].
Qed.

Lemma filter_filter_other {A : Type} (key : A -> Z) (id other : Z) (l : list A) :
  other <> id ->
  filter (fun a => key a =? other) (filter (fun a => negb (key a =? id)) l) =
  filter (fun a => key a =? other) l.
Proof.
  intros Hne. induction l as [|a l IH]; cbn [filter]; [reflexivity|].
  destruct (Z.eqb_spec (key a) id) as [E|E]; cbn [negb filter].
  - destruct (Z.eqb_spec (key a) other) as [E'|E']; [congruence | exact IH].
  - destruct (key a =? other); [now rewrite IH | exact IH].
Qed.

Lemma filter_key_absent {A : Type} (key : A -> Z) (id : Z) (l : list A) :
  ~ In id (map key (filter (fun a => negb (key a =? id)) l)).
Proof.
  intros H. apply in_map_iff in H. destruct H as [a [E Ha]].
  apply filter_In in Ha. destruct Ha as [_ Ha].
  apply negb_true_iff, Z.eqb_neq in Ha. contradiction.
Qed.

(** X9.  A restaurant that has been deleted is gone: after the DELETE that
    is answered 204, the same DELETE is answered 404 and changes nothing,
    GET /restaurants/{id} is answered 404, and GET /restaurants lists the
    other restaurants, in their order, and only them.  (The id is a key of
    the store, so it fits 64 bits.) *)
Theorem delete_then_gone :
  forall (fuel : nat) (db : DB) (id : Z),
    (2 <= fuel)%nat ->
    in_int64 id = true ->
    restaurant_exists db id ->
    let db' := fst (RestaurantByID_delete db id) in
    status_code (snd (RestaurantByID_delete db id)) = 204
    /\ RestaurantByID_delete db' id =
       (db', make_response (Json (JObj [("error", JStr "Restaurant not found")])) 404)
    /\ RestaurantByID_get fuel db' id =
       Ok (make_response (Json (JObj [("error", JStr "Restaurant not found")])) 404)
    /\ Restaurants_get fuel db' =
       Ok (make_response
             (Json (JArr (map (fun r => JObj (restaurant_scalars r))
                              (filter (fun r => negb (Restaurant.id r =? id))
                                      (restaurants db)))))
             200).
Proof.
  intros fuel db id Hf Hi Hex db'. subst db'.
  destruct (fuel_from 2 fuel Hf) as [f ->]. cbn [Nat.add].
  destruct (restaurant_present db id Hex) as [r Er].
  rewrite (delete_present db id r Er). cbn [fst snd status_code].
  set (db' := mk_DB _ _ _).
  assert (Hgone : Restaurant_row db' id = None).
  { apply find_key_none. apply filter_key_absent. }
  split; [reflexivity|]. split; [|split].
  - now apply delete_absent.
  - now apply get_absent.
  - now rewrite restaurants_get_rows.
Qed.

Lemma delete_then_gone_witness :
  let db' := fst (RestaurantByID_delete seeded 2) in
  status_code (snd (RestaurantByID_delete seeded 2)) = 204
  /\ RestaurantByID_delete db' 2 =
     (db', make_response (Json (JObj [("error", JStr "Restaurant not found")])) 404)
  /\ RestaurantByID_get 2 db' 2 =
     Ok (make_response (Json (JObj [("error", JStr "Restaurant not found")])) 404)
  /\ Restaurants_get 2 db' =
     Ok (make_response
           (Json (JArr (map (fun r => JObj (restaurant_scalars r))
                            (filter (fun r => negb (Restaurant.id r =? 2))
                                    (restaurants seeded)))))
           200).
Proof.
  apply (delete_then_gone 2 seeded 2).
  - lia.
  - reflexivity.
  - unfold restaurant_exists. simpl. tauto.
Defined.

(** X10.  Deleting a restaurant changes no answer about the others: the
    detail view of every other restaurant, with its offerings and their
    pizzas, and the list of pizzas are what they were before the DELETE,
    whether it found the restaurant or not. *)
Theorem delete_leaves_other_views :
  forall (fuel : nat) (db : DB) (id other : Z),
    (5 <= fuel)%nat ->
    other <> id ->
    let db' := fst (RestaurantByID_delete db id) in
    RestaurantByID_get fuel db' other = RestaurantByID_get fuel db other
    /\ Pizzas_get fuel db' = Pizzas_get fuel db.
Proof.
  intros fuel db id other Hf Hne db'. subst db'.
  destruct (fuel_from 5 fuel Hf) as [f ->]. cbn [Nat.add].
  destruct (Restaurant_row db id) as [r|] eqn:Er.
  - rewrite (delete_present db id r Er). cbn [fst].
    set (db' := mk_DB _ _ _).
    assert (Hq : Restaurant_row db' other = Restaurant_row db other).
    { apply (find_filter_other Restaurant.id id other _ Hne). }
    split; [|now rewrite !pizzas_get_rows].
    destruct (Restaurant_row db other) as [r'|] eqn:Er'.
    + destruct (find_key_some Restaurant.id other _ r' Er') as [_ Hid].
      rewrite (get_detail_present f db other r' Er').
      rewrite (get_detail_present f db' other r' Hq).
      unfold restaurant_pizzas_of_restaurant, db'. cbn [restaurant_pizzas].
      rewrite Hid.
      rewrite (filter_filter_other RestaurantPizza.restaurant_id id other _ Hne).
      reflexivity.
    + unfold RestaurantByID_get, Restaurant_query_get. rewrite Hq, Er'.
      cbn [query_get]. destruct (in_int64 other); reflexivity.
  - rewrite (delete_unfound_store db id Er). split; reflexivity.
Qed.

Lemma delete_leaves_other_views_witness :
  let db' := fst (RestaurantByID_delete seeded 2) in
  RestaurantByID_get 5 db' 1 = RestaurantByID_get 5 seeded 1
  /\ Pizzas_get 5 db' = Pizzas_get 5 seeded.
Proof.
  apply (delete_leaves_other_views 5 seeded 2 1).
  - lia.
  - discriminate.
Defined.

Lemma reachable_wf_witness :
  db_wf (fst (RestaurantByID_delete
                (mk_DB [Restaurant.mk 1 "Karen's Pizza Shack" "123 Pizza Lane"] [] []) 1)).
Proof.
  apply (reachable_wf
           (fst (RestaurantByID_delete
                   (mk_DB [Restaurant.mk 1 "Karen's Pizza Shack" "123 Pizza Lane"] [] []) 1))).
  apply (reachable_step
           (mk_DB [Restaurant.mk 1 "Karen's Pizza Shack" "123 Pizza Lane"] [] [])).
  - apply (reachable_step empty_db _ reachable_empty).
    apply (step_add_restaurant
             empty_db (Some "Karen's Pizza Shack") (Some "123 Pizza Lane")
             (Restaurant.mk_pending (Some "Karen's Pizza Shack") (Some "123 Pizza Lane")));
      reflexivity.
  - apply step_delete.
Defined.

(** ** A restaurant that has just been committed *)

Lemma find_snoc_fresh {A : Type} (key : A -> Z) (l : list A) (a : A) :
  ~ In (key a) (map key l) ->
  find (fun b => key b =? key a) (l ++ [a]) = Some a.
Proof.
  induction l as [|b l IH]; cbn [app find map In]; intros H.
  - now rewrite Z.eqb_refl.
  - destruct (Z.eqb_spec (key b) (key a)) as [E|E]; [tauto|].
    apply IH. tauto.
Qed.

Lemma filter_none {A : Type} (f : A -> bool) (l : list A) :
  (forall a, In a l -> f a = false) -> filter f l = [].
Proof.
  induction l as [|a l IH]; cbn [filter]; intros H; [reflexivity|].
  rewrite (H a (or_introl eq_refl)). apply IH. intros b Hb. apply H. now right.
Qed.

(** X11.  A restaurant that has been constructed and committed can be
    fetched under the key the store gave it, a key that was not in use, and
    its detail view has an empty [restaurant_pizzas]: in a well-formed store
    a new restaurant never takes over offerings, even when its key is that of
    a restaurant deleted before. *)
Theorem new_restaurant_fetched_without_offerings :
  forall (fuel : nat) (db db' : DB) (name address : string) (p : Restaurant.pending),
    (5 <= fuel)%nat ->
    db_wf db ->
    Restaurant.init (Some name) (Some address) = Ok p ->
    insert_restaurant db p = Ok db' ->
    exists id,
      ~ restaurant_exists db id
      /\ RestaurantByID_get fuel db' id =
         Ok (make_response
               (Json (JObj [("id", JInt id); ("name", JStr name);
                            ("address", JStr address);
                            ("restaurant_pizzas", JArr [])])) 200).
Proof.
  intros fuel db db' name address p Hf Hwf Hi Hc.
  destruct (fuel_from 5 fuel Hf) as [f ->]. cbn [Nat.add].
  apply init_fields in Hi. destruct Hi as [Hn [Ha _]].
  apply insert_restaurant_row in Hc. destruct Hc as [n [a [En [Ea [_ ->]]]]].
  assert (n = name) by congruence. assert (a = address) by congruence. subst n a.
  set (id := next_id (map Restaurant.id (restaurants db))).
  set (row := Restaurant.mk id name address).
  exists id. split; [apply next_id_fresh|].
  assert (Hq : Restaurant_row
                 (mk_DB (restaurants db ++ [row]) (pizzas db) (restaurant_pizzas db)) id
               = Some row).
  { apply (find_snoc_fresh Restaurant.id (restaurants db) row). apply next_id_fresh. }
  rewrite (get_detail_present f _ id row Hq).
  unfold restaurant_pizzas_of_restaurant. cbn [restaurant_pizzas Restaurant.id row].
  rewrite filter_none; [reflexivity|].
  intros rp Hrp. apply Z.eqb_neq.
  pose proof (next_id_above _ _ (wf_restaurant_ref db Hwf rp Hrp)). fold id in H. lia.
Qed.

Lemma new_restaurant_fetched_without_offerings_witness :
  exists id,
    ~ restaurant_exists (fst (RestaurantByID_delete seeded 3)) id
    /\ RestaurantByID_get
         5 (mk_DB (restaurants (fst (RestaurantByID_delete seeded 3)) ++
                   [Restaurant.mk 3 "Luigi's" "1 Oven Road"])
                  (pizzas seeded)
                  (restaurant_pizzas (fst (RestaurantByID_delete seeded 3)))) id =
       Ok (make_response
             (Json (JObj [("id", JInt id); ("name", JStr "Luigi's");
                          ("address", JStr "1 Oven Road");
                          ("restaurant_pizzas", JArr [])])) 200).
Proof.
  apply (new_restaurant_fetched_without_offerings
           5 (fst (RestaurantByID_delete seeded 3)) _ "Luigi's" "1 Oven Road"
           (Restaurant.mk_pending (Some "Luigi's") (Some "1 Oven Road"))).
  - lia.
  - apply (delete_commit_wf seeded (Restaurant.mk 3 "Kiki's Pizza Palace" "789 Cheese Street")).
    + exact seeded_wf.
    + reflexivity.
  - reflexivity.
  - reflexivity.
Defined.

(** ** The default view of a pizza *)

Lemma serialize_offering_in_pizza (fuel : nat) (db : DB) (rp : RestaurantPizza.t) :
  serialize (S (S (S fuel))) db [Serializer.mk_Rule true ["pizza"]]
            (Obj (MRestaurantPizza rp))
  = Ok (offering_in_pizza db rp).
Proof.
  unfold offering_in_pizza, nested_restaurant.
  cbn -[Restaurant_row].
  destruct (Restaurant_row db (RestaurantPizza.restaurant_id rp)); reflexivity.
Qed.

Lemma to_dict_pizza_detail (fuel : nat) (db : DB) (p : Pizza.t) :
  to_dict (S (S (S (S (S fuel))))) db (MPizza p) [] =
  Ok (JObj (pizza_scalars p ++
            [("restaurant_pizzas",
              JArr (map (offering_in_pizza db) (restaurant_pizzas_of_pizza db p)))])).
Proof.
  unfold to_dict. rewrite serialize_Obj.
  cbn -[serialize restaurant_pizzas_of_pizza].
  rewrite !serialize_Prim. cbn [bind].
  rewrite serialize_Coll, for_each_map.
  rewrite (for_each_map_ok _ (offering_in_pizza db))
    by (intros rp _; apply serialize_offering_in_pizza).
  reflexivity.
Qed.

(** X12.  [Pizza.to_dict()] under the rules of the models mirrors the detail
    view of a restaurant: the pizza's [id, name, ingredients] and a
    [restaurant_pizzas] array that has, for each offering of the pizza, its
    [id, price, restaurant_id, pizza_id] and the nested restaurant's
    [id, name, address]; an item has no [pizza] key and the nested restaurant
    no [restaurant_pizzas] key, so the cycle pizza, offering, pizza is cut
    at depth one. *)
Theorem pizza_to_dict_detail :
  forall (fuel : nat) (db : DB) (p : Pizza.t),
    (5 <= fuel)%nat ->
    db_wf db ->
    exists offerings,
      to_dict fuel db (MPizza p) [] =
      Ok (JObj (pizza_scalars p ++ [("restaurant_pizzas", JArr offerings)]))
      /\ Forall2
           (fun rp o =>
              exists r,
                In r (restaurants db)
                /\ Restaurant.id r = RestaurantPizza.restaurant_id rp
                /\ o = JObj (offering_scalars rp ++
                             [("restaurant", JObj (restaurant_scalars r))])
                /\ has_key "pizza" o = false
                /\ has_key "restaurant_pizzas" (JObj (restaurant_scalars r)) = false)
           (filter (fun rp => RestaurantPizza.pizza_id rp =? Pizza.id p)
                   (restaurant_pizzas db))
           offerings.
Proof.
  intros fuel db p Hf Hwf.
  destruct (fuel_from 5 fuel Hf) as [f ->]. cbn [Nat.add].
  exists (map (offering_in_pizza db) (restaurant_pizzas_of_pizza db p)).
  split; [apply to_dict_pizza_detail|].
  unfold restaurant_pizzas_of_pizza.
  apply Forall2_map_r. intros rp Hrp.
  apply filter_In in Hrp. destruct Hrp as [Hrp _].
  destruct (restaurant_present db _ (wf_restaurant_ref db Hwf rp Hrp)) as [r Hr].
  destruct (find_key_some Restaurant.id _ _ r Hr) as [Hin Hid].
  exists r. unfold offering_in_pizza, nested_restaurant. rewrite Hr.
  repeat split; assumption.
Qed.

Lemma pizza_to_dict_detail_witness :
  exists offerings,
    to_dict 5 seeded (MPizza (Pizza.mk 1 "Margherita" "Dough, Tomato Sauce, Cheese, Basil")) [] =
    Ok (JObj (pizza_scalars (Pizza.mk 1 "Margherita" "Dough, Tomato Sauce, Cheese, Basil")
              ++ [("restaurant_pizzas", JArr offerings)]))
    /\ Forall2
         (fun rp o =>
            exists r,
              In r (restaurants seeded)
              /\ Restaurant.id r = RestaurantPizza.restaurant_id rp
              /\ o = JObj (offering_scalars rp ++
                           [("restaurant", JObj (restaurant_scalars r))])
              /\ has_key "pizza" o = false
              /\ has_key "restaurant_pizzas" (JObj (restaurant_scalars r)) = false)
         (filter (fun rp => RestaurantPizza.pizza_id rp
                            =? Pizza.id (Pizza.mk 1 "Margherita"
                                                  "Dough, Tomato Sauce, Cheese, Basil"))
                 (restaurant_pizzas seeded))
         offerings.
Proof.
  apply (pizza_to_dict_detail
           5 seeded (Pizza.mk 1 "Margherita" "Dough, Tomato Sauce, Cheese, Basil")).
  - lia.
  - exact seeded_wf.
Defined.

(** ** Error bodies, bulk commits, and the list against the detail view *)

(** X14.  The error bodies of POST /restaurant_pizzas have one shape per
    status: a 400 is an object whose only key is [errors], holding an array
    of one string; a 404 is an object whose only key is [error], holding
    "Restaurant not found" or "Pizza not found". *)
Theorem post_error_bodies :
  forall (fuel : nat) (db : DB) (body_in : payload),
    (4 <= fuel)%nat ->
    let resp := snd (RestaurantPizzas_post fuel db body_in) in
    (status_code resp = 400 ->
     exists message, data resp = Json (JObj [("errors", JArr [JStr message])]))
    /\ (status_code resp = 404 ->
        data resp = Json (JObj [("error", JStr "Restaurant not found")])
        \/ data resp = Json (JObj [("error", JStr "Pizza not found")])).
Proof.
  intros fuel db data0 Hf resp. subst resp.
  destruct (fuel_from 4 fuel Hf) as [f ->]. cbn [Nat.add].
  destruct (post_outcome f db data0)
    as [E|[E|[E|[E|[[E _]|[rp [r [p [E _]]]]]]]]]; rewrite E; cbn [snd];
    split; intros H; try discriminate H.
  - eexists. reflexivity.
  - now left.
  - now right.
  - eexists. reflexivity.
Qed.

Lemma post_error_bodies_witness :
  let resp := snd (RestaurantPizzas_post 4 seeded (mk_payload (JInt 0) (Some 1) (Some 1))) in
  (status_code resp = 400 ->
   exists message, data resp = Json (JObj [("errors", JArr [JStr message])]))
  /\ (status_code resp = 404 ->
      data resp = Json (JObj [("error", JStr "Restaurant not found")])
      \/ data resp = Json (JObj [("error", JStr "Pizza not found")])).
Proof.
  apply (post_error_bodies 4 seeded (mk_payload (JInt 0) (Some 1) (Some 1))).
  lia.
Defined.

(** X15.  [add_all] and [commit] of restaurants is one transaction that is
    written whole: when it succeeds, the store has gained one row for each
    instance, in their order and with their names, the names in the store
    are still distinct, and the pizzas and the offerings are as they were.
    So a batch in which a name comes twice, or is already in the store,
    cannot succeed. *)
Theorem add_all_restaurants_commit :
  forall (instances : list Restaurant.pending) (db db' : DB),
    NoDup (map Restaurant.name (restaurants db)) ->
    add_all_commit insert_restaurant db instances = Ok db' ->
    map (fun r => Some (Restaurant.name r)) (restaurants db') =
    map (fun r => Some (Restaurant.name r)) (restaurants db)
    ++ map Restaurant.new_name instances
    /\ NoDup (map Restaurant.name (restaurants db'))
    /\ pizzas db' = pizzas db
    /\ restaurant_pizzas db' = restaurant_pizzas db.
Proof.
  induction instances as [|p ps IH]; intros db db' Hn H; cbn [add_all_commit] in H.
  - inversion H; subst db'. cbn [map]. rewrite app_nil_r. auto.
  - destruct (insert_restaurant db p) as [db1|e] eqn:Hi; cbn [bind] in H;
      [|discriminate].
    apply insert_restaurant_row in Hi.
    destruct Hi as [n [a [En [Ea [Hfresh ->]]]]].
    assert (Hn1 : NoDup (map Restaurant.name
                             (restaurants db ++
                              [Restaurant.mk (next_id (map Restaurant.id (restaurants db)))
                                             n a]))).
    { rewrite map_app. cbn [map Restaurant.name]. now apply NoDup_snoc. }
    destruct (IH (mk_DB _ _ _) db' Hn1 H) as [H1 [H2 [H3 H4]]].
    cbn [restaurants pizzas restaurant_pizzas] in H1, H3, H4.
    split; [|auto].
    rewrite H1, map_app. cbn [map Restaurant.name]. rewrite En, <- app_assoc.
    reflexivity.
Qed.

Lemma add_all_restaurants_commit_witness :
  map (fun r => Some (Restaurant.name r))
      (restaurants (mk_DB [Restaurant.mk 1 "A" "a"; Restaurant.mk 2 "B" "b"] [] [])) =
  map (fun r => Some (Restaurant.name r)) (restaurants empty_db)
  ++ map Restaurant.new_name
       [Restaurant.mk_pending (Some "A") (Some "a");
        Restaurant.mk_pending (Some "B") (Some "b")]
  /\ NoDup (map Restaurant.name
                (restaurants (mk_DB [Restaurant.mk 1 "A" "a"; Restaurant.mk 2 "B" "b"] [] [])))
  /\ pizzas (mk_DB [Restaurant.mk 1 "A" "a"; Restaurant.mk 2 "B" "b"] [] []) =
     pizzas empty_db
  /\ restaurant_pizzas (mk_DB [Restaurant.mk 1 "A" "a"; Restaurant.mk 2 "B" "b"] [] []) =
     restaurant_pizzas empty_db.
Proof.
  apply (add_all_restaurants_commit
           [Restaurant.mk_pending (Some "A") (Some "a");
            Restaurant.mk_pending (Some "B") (Some "b")]
           empty_db).
  - constructor.
  - reflexivity.
Defined.

(** X16.  The list and the detail view agree: in a well-formed store, every
    restaurant that GET /restaurants lists is fetched by GET
    /restaurants/{id} under its id, with status 200 and the same
    [id, name, address], followed by its [restaurant_pizzas]. *)
Theorem listed_restaurant_is_fetched :
  forall (fuel : nat) (db : DB) (r : Restaurant.t),
    (5 <= fuel)%nat ->
    db_wf db ->
    In r (restaurants db) ->
    exists rs offerings,
      Restaurants_get fuel db = Ok (make_response (Json (JArr rs)) 200)
      /\ In (JObj (restaurant_scalars r)) rs
      /\ RestaurantByID_get fuel db (Restaurant.id r) =
         Ok (make_response
               (Json (JObj (restaurant_scalars r ++
                            [("restaurant_pizzas", JArr offerings)]))) 200).
Proof.
  intros fuel db r Hf Hwf Hin.
  destruct (fuel_from 5 fuel Hf) as [f ->]. cbn [Nat.add].
  exists (map (fun r => JObj (restaurant_scalars r)) (restaurants db)),
         (map (offering_in_detail db) (restaurant_pizzas_of_restaurant db r)).
  split; [apply restaurants_get_rows|]. split.
  - now apply (in_map (fun r => JObj (restaurant_scalars r))).
  - apply get_detail_present.
    apply (find_key_unique Restaurant.id _ r (wf_restaurant_ids db Hwf) Hin).
Qed.

Lemma listed_restaurant_is_fetched_witness :
  exists rs offerings,
    Restaurants_get 5 seeded = Ok (make_response (Json (JArr rs)) 200)
    /\ In (JObj (restaurant_scalars
                   (Restaurant.mk 2 "Sanjay's Pizza Bistro" "456 Doughnut Drive"))) rs
    /\ RestaurantByID_get
         5 seeded
         (Restaurant.id (Restaurant.mk 2 "Sanjay's Pizza Bistro" "456 Doughnut Drive")) =
       Ok (make_response
             (Json (JObj (restaurant_scalars
                            (Restaurant.mk 2 "Sanjay's Pizza Bistro" "456 Doughnut Drive") ++
                          [("restaurant_pizzas", JArr offerings)]))) 200).
Proof.
  apply (listed_restaurant_is_fetched
           5 seeded (Restaurant.mk 2 "Sanjay's Pizza Bistro" "456 Doughnut Drive")).
  - lia.
  - exact seeded_wf.
  - simpl. tauto.
Defined.
